(** * The agent-to-agent router of day-4/main.py

    A shallow embedding of the A2A message router of [src/day-4/main.py]
    (registry refresh, mention parsing, message forwarding, agent
    selection and the [/a2a] endpoint handler) together with the
    properties its specification states about it.

    Conventions of the embedding.
    - A Python [str] is a Rocq [string], read as the sequence of its
      UTF-8 code units.  The regular-expression classes [\w] and [\s],
      [str.strip] and [str.lower] are exact on the ASCII range; code
      units above 127 are taken to be neither word characters nor white
      space and are left alone by [lower].
    - A value decoded from JSON is a [json] term; numbers are integers.
    - Exceptions are explicit: a computation that may raise returns a
      [result].
    - The process-wide state (the directory [KNOWN_AGENTS], the audit
      log and the requests sent to peers) is threaded explicitly. *)

From Stdlib Require Import String Ascii List ZArith NArith Bool Lia DecimalString.
Import ListNotations.

Open Scope list_scope.
Open Scope string_scope.

(** ** Text primitives *)

Module Text.

Definition between (lo hi n : N) : bool := (N.leb lo n && N.leb n hi)%bool.

(** [\w] on the ASCII range: letters, digits and the underscore. *)
Definition is_word (c : ascii) : bool :=
  let n := N_of_ascii c in
  (between 48 57 n || between 65 90 n || between 97 122 n || N.eqb n 95)%bool.

(** The character class [[\w-]] of the mention pattern. *)
Definition is_mention_char (c : ascii) : bool :=
  (is_word c || N.eqb (N_of_ascii c) 45)%bool.

(** [\s], which is also what [str.strip] removes: TAB, LF, VT, FF, CR,
    the four separators 0x1c-0x1f and the space. *)
Definition is_space (c : ascii) : bool :=
  let n := N_of_ascii c in
  (between 9 13 n || between 28 32 n)%bool.

Definition is_at (c : ascii) : bool := N.eqb (N_of_ascii c) 64.

Fixpoint take_while (p : ascii -> bool) (s : string) : string :=
  match s with
  | EmptyString => EmptyString
  | String c s' => if p c then String c (take_while p s') else EmptyString
  end.

Fixpoint drop_while (p : ascii -> bool) (s : string) : string :=
  match s with
  | EmptyString => EmptyString
  | String c s' => if p c then drop_while p s' else s
  end.

Fixpoint all_chars (p : ascii -> bool) (s : string) : bool :=
  match s with
  | EmptyString => true
  | String c s' => (p c && all_chars p s')%bool
  end.

(** [strip_prefix p s] is [Some r] when [s = p ++ r]. *)
Fixpoint strip_prefix (p s : string) : option string :=
  match p, s with
  | EmptyString, _ => Some s
  | String a p', String b s' =>
      if Ascii.eqb a b then strip_prefix p' s' else None
  | String _ _, EmptyString => None
  end.

(** [needle in hay]. *)
Fixpoint contains (needle hay : string) : bool :=
  match strip_prefix needle hay with
  | Some _ => true
  | None =>
      match hay with
      | EmptyString => false
      | String _ hay' => contains needle hay'
      end
  end.

Fixpoint rev_string (s : string) : string :=
  match s with
  | EmptyString => EmptyString
  | String c s' => rev_string s' ++ String c EmptyString
  end.

(** [s.endswith(suffix)]. *)
Definition endswith (s suffix : string) : bool :=
  match strip_prefix (rev_string suffix) (rev_string s) with
  | Some _ => true
  | None => false
  end.

(** [s.rstrip(ch)] for a one-character argument. *)
Definition rstrip_char (ch : ascii) (s : string) : string :=
  rev_string (drop_while (Ascii.eqb ch) (rev_string s)).

(** [s.strip()]. *)
Definition strip (s : string) : string :=
  rev_string (drop_while is_space (rev_string (drop_while is_space s))).

(** [s.lower()]. *)
Definition lower_char (c : ascii) : ascii :=
  let n := N_of_ascii c in
  if between 65 90 n then ascii_of_N (n + 32) else c.

Fixpoint lower (s : string) : string :=
  match s with
  | EmptyString => EmptyString
  | String c s' => String (lower_char c) (lower s')
  end.

(** [s.replace(old, new)] for a non-empty [old]: every occurrence,
    left to right, without overlap.  [skip] counts the characters of
    an occurrence of [old] that are still to be passed over. *)
Fixpoint replace_from (old new : string) (skip : nat) (s : string) : string :=
  match skip with
  | S k =>
      match s with
      | EmptyString => EmptyString
      | String _ s' => replace_from old new k s'
      end
  | O =>
      match s with
      | EmptyString => EmptyString
      | String c s' =>
          match strip_prefix old s with
          | Some _ => new ++ replace_from old new (String.length old - 1) s'
          | None => String c (replace_from old new O s')
          end
      end
  end.

Definition replace (old new s : string) : string := replace_from old new O s.

(** [s.split(sep)] for a non-empty [sep].  [cur] holds the characters
    of the current piece in reverse. *)
Fixpoint split_from (sep : string) (skip : nat) (cur : string) (s : string)
  : list string :=
  match skip with
  | S k =>
      match s with
      | EmptyString => [rev_string cur]
      | String _ s' => split_from sep k cur s'
      end
  | O =>
      match s with
      | EmptyString => [rev_string cur]
      | String c s' =>
          match strip_prefix sep s with
          | Some _ =>
              rev_string cur ::
                split_from sep (String.length sep - 1) EmptyString s'
          | None => split_from sep O (String c cur) s'
          end
      end
  end.

Definition split (sep s : string) : list string :=
  split_from sep O EmptyString s.

(** [len(s)]: code points, that is, code units that are not UTF-8
    continuation bytes. *)
Fixpoint len (s : string) : nat :=
  match s with
  | EmptyString => O
  | String c s' =>
      if between 128 191 (N_of_ascii c) then len s' else S (len s')
  end.

Definition decimal (z : Z) : string := NilZero.string_of_int (Z.to_int z).

End Text.


Definition LF : string := String (ascii_of_nat 10) EmptyString.

(** ** Python values *)

(** What [response.json()] and [json.loads] produce, and what a request
    body may hold.  An object keeps its members in insertion order and
    holds each key once. *)
#[warnings="-register-all"]
Inductive json : Type :=
| JNull
| JBool (b : bool)
| JNum (z : Z)
| JStr (s : string)
| JArr (items : list json)
| JObj (members : list (string * json)).

Module Py.

(** Truth value of a Python object, as tested by [not], [or] and [if]. *)
Definition truthy (v : json) : bool :=
  match v with
  | JNull => false
  | JBool b => b
  | JNum z => negb (Z.eqb z 0)
  | JStr s => negb (String.eqb s "")
  | JArr items => match items with [] => false | _ => true end
  | JObj members => match members with [] => false | _ => true end
  end.

(** [a or b]. *)
Definition or_else (a b : json) : json := if truthy a then a else b.

Definition type_name (v : json) : string :=
  match v with
  | JNull => "NoneType"
  | JBool _ => "bool"
  | JNum _ => "int"
  | JStr _ => "str"
  | JArr _ => "list"
  | JObj _ => "dict"
  end.

Definition isinstance_list (v : json) : bool :=
  match v with JArr _ => true | _ => false end.

Fixpoint lookup (k : string) (members : list (string * json)) : option json :=
  match members with
  | [] => None
  | (k', v) :: rest => if String.eqb k' k then Some v else lookup k rest
  end.

Definition as_number (v : json) : option Z :=
  match v with
  | JBool b => Some (if b then 1%Z else 0%Z)
  | JNum z => Some z
  | _ => None
  end.

(** [a == b].  [True] and [False] compare equal to 1 and 0; lists are
    compared position by position, dicts member by member. *)
Fixpoint eq (a b : json) {struct a} : bool :=
  match a, b with
  | JNull, JNull => true
  | JStr s, JStr t => String.eqb s t
  | JArr l, JArr m =>
      (fix go (l m : list json) {struct l} : bool :=
         match l, m with
         | [], [] => true
         | x :: l', y :: m' => (eq x y && go l' m')%bool
         | _, _ => false
         end) l m
  | JObj f, JObj g =>
      (Nat.eqb (List.length f) (List.length g) &&
       (fix go (f : list (string * json)) {struct f} : bool :=
          match f with
          | [] => true
          | (k, v) :: f' =>
              (match lookup k g with
               | Some w => eq v w
               | None => false
               end && go f')%bool
          end) f)%bool
  | _, _ =>
      match as_number a, as_number b with
      | Some x, Some y => Z.eqb x y
      | _, _ => false
      end
  end.

(** Lists and dicts cannot be dictionary keys. *)
Definition hashable (v : json) : bool :=
  match v with
  | JArr _ | JObj _ => false
  | _ => true
  end.

Definition hex_digit (n : N) : ascii :=
  if N.ltb n 10 then ascii_of_N (48 + n) else ascii_of_N (87 + n).

Definition quote1 : ascii := ascii_of_nat 39.
Definition quote2 : ascii := ascii_of_nat 34.
Definition backslash : ascii := ascii_of_nat 92.

Definition has_char (c : ascii) (s : string) : bool :=
  negb (Text.all_chars (fun x => negb (Ascii.eqb x c)) s).

Fixpoint escape (q : ascii) (s : string) : string :=
  match s with
  | EmptyString => EmptyString
  | String c s' =>
      let n := N_of_ascii c in
      (if (Ascii.eqb c q || Ascii.eqb c backslash)%bool then
         String backslash (String c EmptyString)
       else if N.eqb n 9 then String backslash "t"
       else if N.eqb n 10 then String backslash "n"
       else if N.eqb n 13 then String backslash "r"
       else if (N.ltb n 32 || N.eqb n 127)%bool then
         String backslash
           (String "x" (String (hex_digit (N.div n 16))
                          (String (hex_digit (N.modulo n 16)) EmptyString)))
       else String c EmptyString) ++ escape q s'
  end.

(** [repr(s)] of a string: single quotes, unless the text holds a
    single quote and no double quote. *)
Definition repr_str (s : string) : string :=
  let q := if (has_char quote1 s && negb (has_char quote2 s))%bool
           then quote2 else quote1 in
  String q (escape q s ++ String q EmptyString).

Fixpoint join (sep : string) (parts : list string) : string :=
  match parts with
  | [] => EmptyString
  | [p] => p
  | p :: rest => p ++ sep ++ join sep rest
  end.

(** [repr(v)]. *)
Fixpoint repr (v : json) : string :=
  match v with
  | JNull => "None"
  | JBool true => "True"
  | JBool false => "False"
  | JNum z => Text.decimal z
  | JStr s => repr_str s
  | JArr items => "[" ++ join ", " (List.map repr items) ++ "]"
  | JObj members =>
      "{" ++ join ", "
               (List.map (fun kv => repr_str (fst kv) ++ ": " ++ repr (snd kv))
                  members)
          ++ "}"
  end.

(** [str(v)], also what an f-string inserts. *)
Definition str (v : json) : string :=
  match v with
  | JStr s => s
  | _ => repr v
  end.

End Py.

(** ** Exceptions, results and the process state *)

Inductive exn : Type :=
| TimeoutException (msg : string)   (* httpx.TimeoutException *)
| HTTPError (msg : string)          (* any other httpx.HTTPError *)
| HTTPException (status_code : Z) (detail : string)  (* fastapi *)
| Exception (msg : string).         (* any other subclass of Exception *)

(** [str(e)]. *)
Definition exn_str (e : exn) : string :=
  match e with
  | TimeoutException msg => msg
  | HTTPError msg => msg
  | HTTPException code detail => Text.decimal code ++ ": " ++ detail
  | Exception msg => msg
  end.

Inductive result (A : Type) : Type :=
| Return (a : A)
| Raise (e : exn).
Arguments Return {A} a.
Arguments Raise {A} e.

Definition rbind {A B : Type} (r : result A) (k : A -> result B) : result B :=
  match r with
  | Return a => k a
  | Raise e => Raise e
  end.

Definition AttributeError (v : json) (attr : string) : exn :=
  Exception ("'" ++ Py.type_name v ++ "' object has no attribute '" ++ attr ++ "'").

(** [v.get(key, default)]: only a dict has the method. *)
Definition py_get (v : json) (key : string) (default : json) : result json :=
  match v with
  | JObj members =>
      Return (match Py.lookup key members with
              | Some x => x
              | None => default
              end)
  | _ => Raise (AttributeError v "get")
  end.

(** [len(v)]. *)
Definition py_len (v : json) : result nat :=
  match v with
  | JStr s => Return (Text.len s)
  | JArr items => Return (List.length items)
  | JObj members => Return (List.length members)
  | _ => Raise (Exception ("object of type '" ++ Py.type_name v ++ "' has no len()"))
  end.

Fixpoint chars (s : string) : list json :=
  match s with
  | EmptyString => []
  | String c s' => JStr (String c EmptyString) :: chars s'
  end.

(** The items a [for] loop over [v] visits: the elements of a list, the
    keys of a dict, the characters of a string (one item per code unit
    here; the loops of this program fail on the first of them). *)
Definition py_iter (v : json) : result (list json) :=
  match v with
  | JArr items => Return items
  | JObj members => Return (List.map (fun kv => JStr (fst kv)) members)
  | JStr s => Return (chars s)
  | _ => Raise (Exception ("'" ++ Py.type_name v ++ "' object is not iterable"))
  end.

(** A string method called on [v]. *)
Definition as_str (v : json) (method : string) : result string :=
  match v with
  | JStr s => Return s
  | _ => Raise (AttributeError v method)
  end.

(** The directory: a Python dict in insertion order.  The annotation
    says [Dict[str, str]]; a key is whatever hashable value was stored. *)
Definition directory : Type := list (json * string).

Fixpoint dict_get (k : json) (d : directory) : option string :=
  match d with
  | [] => None
  | (k', v) :: rest => if Py.eq k' k then Some v else dict_get k rest
  end.

(** [d[k] = v] for a hashable [k]: an equal key keeps its place and its
    first spelling, a new key goes last. *)
Fixpoint dict_set (k : json) (v : string) (d : directory) : directory :=
  match d with
  | [] => [(k, v)]
  | (k', v') :: rest =>
      if Py.eq k' k then (k', v) :: rest else (k', v') :: dict_set k v rest
  end.

Definition dict_keys (d : directory) : list json := List.map fst d.

Inductive log_level : Type := INFO | ERROR.

Record log_record : Type := { level : log_level; line : string }.

Record request : Type := { req_url : string; req_json : json }.

Record world : Type := {
  KNOWN_AGENTS : directory;
  a2a_log : list log_record;     (* logs/a2a_messages.log, oldest first *)
  outbox : list request          (* POSTs sent to peers, oldest first *)
}.

(** Computations over the process state that may raise. *)
Definition M (A : Type) : Type := world -> result A * world.

Definition ret {A : Type} (a : A) : M A := fun w => (Return a, w).

Definition raise {A : Type} (e : exn) : M A := fun w => (Raise e, w).

Definition lift {A : Type} (r : result A) : M A := fun w => (r, w).

Definition bind {A B : Type} (m : M A) (k : A -> M B) : M B :=
  fun w =>
    match m w with
    | (Return a, w') => k a w'
    | (Raise e, w') => (Raise e, w')
    end.

(** [try: body / except Exception as e: handler e]. *)
Definition try_except {A : Type} (body : M A) (handler : exn -> M A) : M A :=
  fun w =>
    match body w with
    | (Return a, w') => (Return a, w')
    | (Raise e, w') => handler e w'
    end.

Declare Scope monad_scope.
Delimit Scope monad_scope with monad.
Notation "x <- m ;; k" := (bind m (fun x => k))
  (at level 61, m at next level, right associativity) : monad_scope.
Notation "m ;; k" := (bind m (fun _ => k))
  (at level 61, right associativity) : monad_scope.
Notation "x <~ r ;; k" := (rbind r (fun x => k))
  (at level 61, r at next level, right associativity) : monad_scope.
Open Scope monad_scope.

Definition get_known_agents : M directory :=
  fun w => (Return (KNOWN_AGENTS w), w).

(** [KNOWN_AGENTS[k] = v]. *)
Definition set_known_agent (k : json) (v : string) : M unit :=
  fun w =>
    if Py.hashable k then
      (Return tt,
       {| KNOWN_AGENTS := dict_set k v (KNOWN_AGENTS w);
          a2a_log := a2a_log w; outbox := outbox w |})
    else
      (Raise (Exception ("unhashable type: '" ++ Py.type_name k ++ "'")), w).

Definition log (lvl : log_level) (text : string) : M unit :=
  fun w =>
    (Return tt,
     {| KNOWN_AGENTS := KNOWN_AGENTS w;
        a2a_log := (a2a_log w ++ [{| level := lvl; line := text |}])%list;
        outbox := outbox w |}).

(** ** The HTTP client *)

Record response : Type := {
  status_code : Z;
  status_error : string;     (* str() of the error raise_for_status builds *)
  json_body : result json    (* response.json(): the value, or the decoding error *)
}.

(** What awaiting [client.get] or [client.post] comes to. *)
Definition http_result : Type := result response.

Definition raise_for_status (r : response) : result unit :=
  if (Z.leb 200 (status_code r) && Z.leb (status_code r) 299)%bool
  then Return tt
  else Raise (HTTPError (status_error r)).

Record env : Type := {
  post : string -> json -> http_result;   (* the peers *)
  now : string                            (* datetime.now().isoformat() *)
}.

Definition client_post (e : env) (url : string) (body : json) : M response :=
  fun w =>
    (post e url body,
     {| KNOWN_AGENTS := KNOWN_AGENTS w; a2a_log := a2a_log w;
        outbox := (outbox w ++ [{| req_url := url; req_json := body |}])%list |}).

(** ** Agent identity *)

Definition MY_AGENT_USERNAME : string := "mimothecalico".
Definition MY_AGENT_ID : string := MY_AGENT_USERNAME.

(** ** Registry helper: [fetch_agents_from_registry] *)

(** One turn of the loop over the fetched descriptors.  Both operands
    of each [or] are read from the same [agent], so reading the second
    one early raises nothing the first did not. *)
Definition register_fetched_agent (agent : json) : M unit :=
  agent_id <- lift (py_get agent "agent_id" JNull) ;;
  other_id <- lift (py_get agent "username" JNull) ;;
  let username := Py.or_else agent_id other_id in
  endpoint <- lift (py_get agent "endpoint" JNull) ;;
  other_url <- lift (py_get agent "url" (JStr "")) ;;
  let url := Py.or_else endpoint other_url in
  if (negb (Py.truthy username) || Py.eq username (JStr MY_AGENT_USERNAME))%bool
  then ret tt
  else
    text <- lift (as_str url "endswith") ;;
    let url := if negb (Text.endswith text "/a2a")
               then Text.rstrip_char "/" text ++ "/a2a"
               else text in
    set_known_agent username url.

Fixpoint register_fetched (agents : list json) : M unit :=
  match agents with
  | [] => ret tt
  | agent :: rest => register_fetched_agent agent ;; register_fetched rest
  end.

(** [reply] is what [client.get(REGISTRY_URL)] comes to. *)
Definition fetch_agents_from_registry (reply : http_result) : M bool :=
  try_except
    (response <- lift reply ;;
     lift (raise_for_status response) ;;
     data <- lift (json_body response) ;;
     agents <- lift (py_get data "agents" (JArr [])) ;;
     let agents :=
       if (negb (Py.truthy agents) && Py.isinstance_list data)%bool
       then data else agents in
     lift (py_len agents) ;;
     items <- lift (py_iter agents) ;;
     register_fetched items ;;
     ret true)
    (fun _ => ret false).

(** ** A2A helpers *)

(** The body of the request [send_message_to_agent] posts. *)
Definition query_body (message : string) : json :=
  JObj [("question", JStr message);
        ("user_id", JStr ("agent-" ++ MY_AGENT_USERNAME))].

(** The URL of a peer's direct-query endpoint. *)
Definition query_url (agent_url : string) : string :=
  if Text.endswith agent_url "/a2a" then Text.replace "/a2a" "/query" agent_url
  else if negb (Text.endswith agent_url "/query")
       then Text.rstrip_char "/" agent_url ++ "/query"
       else agent_url.

Definition send_message_to_agent (e : env) (agent_id message conversation_id : string)
  : M json :=
  known <- get_known_agents ;;
  match dict_get (JStr agent_id) known with
  | None =>
      ret (JStr ("❌ Agent '" ++ agent_id ++ "' not found. Known agents: "
                   ++ Py.repr (JArr (dict_keys known))))
  | Some agent_url =>
      let agent_url := query_url agent_url in
      try_except
        (response <- client_post e agent_url (query_body message) ;;
         lift (raise_for_status response) ;;
         data <- lift (json_body response) ;;
         lift (py_get data "answer" (JStr (Py.str data))))
        (fun err =>
           match err with
           | TimeoutException _ =>
               ret (JStr ("❌ Timeout connecting to agent '" ++ agent_id ++ "'"))
           | HTTPError msg =>
               ret (JStr ("❌ Error communicating with agent '" ++ agent_id
                            ++ "': " ++ msg))
           | _ => ret (JStr ("❌ Unexpected error: " ++ exn_str err))
           end)
  end.

(** [re.findall(r'@([\w-]+)', text)]: at an at-sign followed by a run of
    [[\w-]] the run is reported.  The scan resumes behind the run; as a
    run holds no at-sign, resuming inside it finds the same matches. *)
Fixpoint extract_agent_mentions (text : string) : list string :=
  match text with
  | EmptyString => []
  | String c rest =>
      if Text.is_at c then
        match Text.take_while Text.is_mention_char rest with
        | EmptyString => extract_agent_mentions rest
        | run => run :: extract_agent_mentions rest
        end
      else extract_agent_mentions rest
  end.

(** [re.sub(literal + r'\s*', '', text, count=1)] for a [literal] of
    characters that stand for themselves in a pattern: the leftmost
    occurrence goes, with the white space behind it. *)
Fixpoint sub_once (literal text : string) : string :=
  match Text.strip_prefix literal text with
  | Some rest => Text.drop_while Text.is_space rest
  | None =>
      match text with
      | EmptyString => EmptyString
      | String c text' => String c (sub_once literal text')
      end
  end.

Definition parse_a2a_request (message : string) : option string * string :=
  match extract_agent_mentions message with
  | [] => (None, message)
  | target_agent :: _ =>
      (Some target_agent, sub_once ("@" ++ target_agent) message)
  end.

(** [parse_a2a_request] on whatever the request carried as its text:
    [re.findall] accepts a string only. *)
Definition parse_a2a_value (text_content : json) : result (option string * string) :=
  match text_content with
  | JStr message => Return (parse_a2a_request message)
  | _ =>
      Raise (Exception ("expected string or bytes-like object, got '"
                          ++ Py.type_name text_content ++ "'"))
  end.

(** ** The endpoints *)

Record A2AMessage : Type := {
  content : list (string * json);
  role : string;
  conversation_id : string
}.

Record A2AResponse : Type := {
  response_content : list (string * json);
  response_role : string;
  response_conversation_id : string;
  timestamp : string;
  agent_id : string
}.

Definition no_target_detail (text_content : json) : string :=
  "❌ ERROR: /a2a endpoint requires @agent-id for routing." ++ LF ++ LF ++
  "Your message: '" ++ Py.str text_content ++ "'" ++ LF ++ LF ++
  "This endpoint is ONLY for agent-to-agent communication." ++ LF ++
  "You must include @agent-id to route to another agent." ++ LF ++ LF ++
  "Examples:" ++ LF ++
  "  - '@john-agent Can you help with this?'" ++ LF ++
  "  - '@research-bot What's the latest on AI?'" ++ LF ++ LF ++
  "For direct queries to THIS agent, use POST /query instead.".

(** [not target_agent]: [None] and the empty string are false. *)
Definition not_target (target_agent : option string) : bool :=
  match target_agent with
  | None => true
  | Some s => String.eqb s ""
  end.

(** What an f-string inserts for [target_agent]. *)
Definition target_text (target_agent : option string) : string :=
  match target_agent with
  | None => "None"
  | Some s => s
  end.

Definition a2a_endpoint (e : env) (message : A2AMessage) : M A2AResponse :=
  try_except
    (text_content <- lift (py_get (JObj (content message)) "text" (JStr "")) ;;
     let conversation_id := conversation_id message in
     log INFO ("INCOMING | conversation_id=" ++ conversation_id
                 ++ " | message=" ++ Py.str text_content) ;;
     parsed <- lift (parse_a2a_value text_content) ;;
     let target_agent := fst parsed in
     let clean_message := snd parsed in
     if not_target target_agent then
       log ERROR ("NO_TARGET | conversation_id=" ++ conversation_id
                    ++ " | message=" ++ Py.str text_content) ;;
       raise (HTTPException 400 (no_target_detail text_content))
     else
       let target_agent := target_text target_agent in
       log INFO ("ROUTING | conversation_id=" ++ conversation_id
                   ++ " | target=" ++ target_agent
                   ++ " | message=" ++ clean_message) ;;
       agent_response <-
         send_message_to_agent e target_agent clean_message conversation_id ;;
       let response_text :=
         "[Forwarded to @" ++ target_agent ++ "]" ++ LF ++ LF
           ++ Py.str agent_response in
       response_length <- lift (py_len agent_response) ;;
       log INFO ("SUCCESS | conversation_id=" ++ conversation_id
                   ++ " | target=" ++ target_agent
                   ++ " | response_length="
                   ++ Text.decimal (Z.of_nat response_length)) ;;
       ret {| response_content :=
                [("text", JStr response_text); ("type", JStr "text")];
              response_role := "assistant";
              response_conversation_id := conversation_id;
              timestamp := now e;
              agent_id := MY_AGENT_ID |})
    (fun err =>
       match err with
       | HTTPException _ _ => raise err
       | _ =>
           log ERROR ("ERROR | conversation_id=" ++ conversation_id message
                        ++ " | error=" ++ exn_str err) ;;
           raise (HTTPException 500
                    ("Error processing A2A message: " ++ exn_str err))
       end).

Definition register_agent (agent_id agent_url : string) : M json :=
  set_known_agent (JStr agent_id) agent_url ;;
  known <- get_known_agents ;;
  ret (JObj [("message",
              JStr ("✅ Agent '" ++ agent_id ++ "' registered successfully"));
             ("agent_id", JStr agent_id);
             ("agent_url", JStr agent_url);
             ("total_known_agents", JNum (Z.of_nat (List.length known)))]).

(** ** Search helper: [select_best_agent] *)

Fixpoint mapM {A B : Type} (f : A -> result B) (l : list A) : result (list B) :=
  match l with
  | [] => Return []
  | a :: rest => b <~ f a ;; bs <~ mapM f rest ;; Return (b :: bs)
  end.

(** [l[i]]. *)
Definition py_index (l : list string) (i : nat) : result string :=
  match List.nth_error l i with
  | Some x => Return x
  | None => Raise (Exception "list index out of range")
  end.

Definition agent_summary (agent : json) : result json :=
  id <~ py_get agent "id" (JStr "") ;;
  label <~ py_get agent "label" (JStr "") ;;
  description <~ py_get agent "description" (JStr "") ;;
  skills <~ py_get agent "skills" (JArr []) ;;
  items <~ py_iter skills ;;
  skill_ids <~ mapM (fun skill => py_get skill "id" (JStr "")) items ;;
  endpoints <~ py_get agent "endpoints" (JObj []) ;;
  Return (JObj [("id", id); ("label", label); ("description", description);
                ("skills", JArr skill_ids); ("endpoints", endpoints)]).

Definition fence : string := "```".
Definition json_fence : string := "```json".

(** The text handed to [json.loads]: the reply stripped, and taken out
    of a Markdown code block when it holds one. *)
Definition unwrap_code_block (response : string) : result string :=
  let response_text := Text.strip response in
  if Text.contains json_fence response_text then
    after <~ py_index (Text.split json_fence response_text) 1 ;;
    inside <~ py_index (Text.split fence after) 0 ;;
    Return (Text.strip inside)
  else if Text.contains fence response_text then
    after <~ py_index (Text.split fence response_text) 1 ;;
    inside <~ py_index (Text.split fence after) 0 ;;
    Return (Text.strip inside)
  else Return response_text.

(** The loop that looks the selected identifier up in the catalog. *)
Fixpoint find_selected (selected_id : json) (agentfacts : list json)
  : result (option json) :=
  match agentfacts with
  | [] => Return None
  | agent :: rest =>
      id <~ py_get agent "id" JNull ;;
      if Py.eq id selected_id then Return (Some agent)
      else find_selected selected_id rest
  end.

(** The [except] branch: keyword matching. *)
Fixpoint keyword_fallback (query_lower : string) (agentfacts : list json)
  : result (option json) :=
  match agentfacts with
  | [] => Return None
  | agent :: rest =>
      description <~ py_get agent "description" (JStr "") ;;
      description <~ as_str description "lower" ;;
      label <~ py_get agent "label" (JStr "") ;;
      label <~ as_str label "lower" ;;
      if (Text.contains query_lower (Text.lower description)
          || Text.contains query_lower (Text.lower label))%bool
      then Return (Some agent)
      else keyword_fallback query_lower rest
  end.

Section Selector.

(** [json.loads]. *)
Variable json_loads : string -> result json.

(** The completion call.  The prompt is fixed text around the query
    and the JSON dump of the summary, so the call is given those two. *)
Variable llm_call : string -> list json -> result string.

(** The [try] block. *)
Definition llm_selection (query : string) (agents_summary agentfacts : list json)
  : result (option json) :=
  response <~ llm_call query agents_summary ;;
  response_text <~ unwrap_code_block response ;;
  selection <~ json_loads response_text ;;
  selected_id <~ py_get selection "selected_agent_id" JNull ;;
  if negb (Py.truthy selected_id) then Return None
  else find_selected selected_id agentfacts.

Definition select_best_agent (query : string) (agentfacts : list json)
  : result (option json) :=
  match agentfacts with
  | [] => Return None
  | _ =>
      agents_summary <~ mapM agent_summary agentfacts ;;
      match llm_selection query agents_summary agentfacts with
      | Return selected => Return selected
      | Raise _ => keyword_fallback (Text.lower query) agentfacts
      end
  end.

End Selector.

(** ** Vocabulary of the statements *)

(** [s] holds a mention: an at-sign followed by a character of [[\w-]]. *)
Definition has_mention (s : string) : Prop :=
  exists pre c post,
    s = pre ++ String "@" (String c post) /\ Text.is_mention_char c = true.

(** [message.content.get("text", "")]. *)
Definition message_text (message : A2AMessage) : json :=
  match Py.lookup "text" (content message) with
  | Some v => v
  | None => JStr ""
  end.

Definition info (text : string) : log_record := {| level := INFO; line := text |}.
Definition error (text : string) : log_record := {| level := ERROR; line := text |}.

(** The forward reaches a known peer that answers with a 2xx status and
    a JSON object. *)
Definition forward_succeeds (e : env) (agent_id message : string) (known : directory)
  : bool :=
  match dict_get (JStr agent_id) known with
  | None => false
  | Some agent_url =>
      match post e (query_url agent_url) (query_body message) with
      | Raise _ => false
      | Return r =>
          match raise_for_status r, json_body r with
          | Return _, Return (JObj _) => true
          | _, _ => false
          end
      end
  end.

(** The four texts [send_message_to_agent] returns for a failed forward. *)
Definition forward_error_text (agent_id : string) (known : directory) (text : string)
  : Prop :=
  text = "❌ Agent '" ++ agent_id ++ "' not found. Known agents: "
           ++ Py.repr (JArr (dict_keys known))
  \/ text = "❌ Timeout connecting to agent '" ++ agent_id ++ "'"
  \/ (exists msg, text = "❌ Error communicating with agent '" ++ agent_id
                          ++ "': " ++ msg)
  \/ (exists msg, text = "❌ Unexpected error: " ++ msg).

(** The state after one more log record, and after one more request. *)
Definition logged (w : world) (r : log_record) : world :=
  {| KNOWN_AGENTS := KNOWN_AGENTS w;
     a2a_log := (a2a_log w ++ [r])%list;
     outbox := outbox w |}.

Definition posted (w : world) (url : string) (body : json) : world :=
  {| KNOWN_AGENTS := KNOWN_AGENTS w;
     a2a_log := a2a_log w;
     outbox := (outbox w ++ [{| req_url := url; req_json := body |}])%list |}.

Definition incoming (message : A2AMessage) : log_record :=
  info ("INCOMING | conversation_id=" ++ conversation_id message
          ++ " | message=" ++ Py.str (message_text message)).

Definition routing (message : A2AMessage) (target clean : string) : log_record :=
  info ("ROUTING | conversation_id=" ++ conversation_id message
          ++ " | target=" ++ target ++ " | message=" ++ clean).

Definition success (message : A2AMessage) (target : string) (n : nat) : log_record :=
  info ("SUCCESS | conversation_id=" ++ conversation_id message
          ++ " | target=" ++ target
          ++ " | response_length=" ++ Text.decimal (Z.of_nat n)).

Definition no_target (message : A2AMessage) : log_record :=
  error ("NO_TARGET | conversation_id=" ++ conversation_id message
           ++ " | message=" ++ Py.str (message_text message)).

Definition forwarded (message : A2AMessage) (e : env) (target : string) (answer : json)
  : A2AResponse :=
  {| response_content :=
       [("text", JStr ("[Forwarded to @" ++ target ++ "]" ++ LF ++ LF
                         ++ Py.str answer));
        ("type", JStr "text")];
     response_role := "assistant";
     response_conversation_id := conversation_id message;
     timestamp := now e;
     agent_id := MY_AGENT_ID |}.

(** ** Sample data *)

Definition empty_world : world :=
  {| KNOWN_AGENTS := []; a2a_log := []; outbox := [] |}.

Definition user_message (text cid : string) : A2AMessage :=
  {| content := [("text", JStr text); ("type", JStr "text")];
     role := "user";
     conversation_id := cid |}.


(** The peer at [http://x/query] answers ["hi"]. *)
Definition alice_env : env :=
  {| post := fun url _ =>
       if String.eqb url "http://x/query" then
         Return {| status_code := 200;
                   status_error := "";
                   json_body := Return (JObj [("answer", JStr "hi")]) |}
       else Raise (HTTPError "All connection attempts failed");
     now := "2025-01-01T00:00:00" |}.

(** The peer at [http://x/query] answers with a number. *)
Definition numeric_env : env :=
  {| post := fun _ _ =>
       Return {| status_code := 200;
                 status_error := "";
                 json_body := Return (JObj [("answer", JNum 5)]) |};
     now := "2025-01-01T00:00:00" |}.

Definition alice_world : world :=
  {| KNOWN_AGENTS := [(JStr "alice", "http://x/a2a")];
     a2a_log := [];
     outbox := [] |}.

(** ** Vocabulary for the directory *)

(** [agent.get("agent_id") or agent.get("username")]. *)
Definition descriptor_id (agent : json) : json :=
  match agent with
  | JObj members =>
      Py.or_else
        (match Py.lookup "agent_id" members with Some v => v | None => JNull end)
        (match Py.lookup "username" members with Some v => v | None => JNull end)
  | _ => JNull
  end.

(** [agent.get("endpoint") or agent.get("url", "")]. *)
Definition descriptor_url (agent : json) : json :=
  match agent with
  | JObj members =>
      Py.or_else
        (match Py.lookup "endpoint" members with Some v => v | None => JNull end)
        (match Py.lookup "url" members with Some v => v | None => JStr "" end)
  | _ => JNull
  end.

(** The URL with the [/a2a] suffix the loop stores. *)
Definition a2a_url (url : string) : string :=
  if negb (Text.endswith url "/a2a") then Text.rstrip_char "/" url ++ "/a2a" else url.

(** The entry a descriptor adds to the directory: none when the loop
    skips the descriptor or fails on it. *)
Definition descriptor_entry (agent : json) : option (json * string) :=
  match agent with
  | JObj _ =>
      if (negb (Py.truthy (descriptor_id agent))
          || Py.eq (descriptor_id agent) (JStr MY_AGENT_USERNAME))%bool
      then None
      else
        match descriptor_url agent with
        | JStr url =>
            if Py.hashable (descriptor_id agent)
            then Some (descriptor_id agent, a2a_url url)
            else None
        | _ => None
        end
  | _ => None
  end.

Definition store (entry : option (json * string)) (d : directory) : directory :=
  match entry with
  | Some (k, v) => dict_set k v d
  | None => d
  end.

Definition store_all (agents : list json) (d : directory) : directory :=
  List.fold_left (fun d agent => store (descriptor_entry agent) d) agents d.

Definition with_known_agents (w : world) (d : directory) : world :=
  {| KNOWN_AGENTS := d; a2a_log := a2a_log w; outbox := outbox w |}.

(** The descriptors a registry reply yields: everything
    [fetch_agents_from_registry] does before its loop. *)
Definition payload_items (reply : http_result) : result (list json) :=
  response <~ reply ;;
  ok <~ raise_for_status response ;;
  data <~ json_body response ;;
  agents <~ py_get data "agents" (JArr []) ;;
  let agents :=
    if (negb (Py.truthy agents) && Py.isinstance_list data)%bool
    then data else agents in
  n <~ py_len agents ;;
  py_iter agents.

(** A registry reply with status 200 and the given body. *)
Definition registry_reply (body : json) : http_result :=
  Return {| status_code := 200; status_error := ""; json_body := Return body |}.

Definition alice_descriptor : json :=
  JObj [("agent_id", JStr "alice"); ("endpoint", JStr "http://x/a2a")].

Definition bob_descriptor : json :=
  JObj [("username", JStr "bob"); ("url", JStr "http://y/")].

(** ** Vocabulary for the selector *)

(** [agent.get("id")]. *)
Definition agent_id_of (agent : json) : json :=
  match agent with
  | JObj members =>
      match Py.lookup "id" members with Some v => v | None => JNull end
  | _ => JNull
  end.




Definition dq : string := String Py.quote2 EmptyString.

Definition mail_agent : json :=
  JObj [("id", JStr "mail");
        ("label", JStr "Email agent");
        ("description", JStr "Sends and reads email");
        ("skills", JArr [JObj [("id", JStr "send")]]);
        ("endpoints", JObj [("static", JArr [JStr "http://mail/query"])])].

(** The text [{"selected_agent_id": "<id>", "reasoning": "closest"}]. *)
Definition selection_text (id : string) : string :=
  "{" ++ dq ++ "selected_agent_id" ++ dq ++ ": " ++ dq ++ id ++ dq ++ ", "
      ++ dq ++ "reasoning" ++ dq ++ ": " ++ dq ++ "closest" ++ dq ++ "}".

(** [json.loads] on the texts the samples use. *)
Definition sample_json_loads (text : string) : result json :=
  if String.eqb text (selection_text "calendar") then
    Return (JObj [("selected_agent_id", JStr "calendar");
                  ("reasoning", JStr "closest")])
  else if String.eqb text (selection_text "mail") then
    Return (JObj [("selected_agent_id", JStr "mail");
                  ("reasoning", JStr "closest")])
  else Raise (Exception "Expecting value: line 1 column 1 (char 0)").

(** A reply wrapped in a Markdown code block. *)
Definition fenced (text : string) : string :=
  json_fence ++ LF ++ text ++ LF ++ fence ++ LF.

(** A model that answers with the given reply. *)
Definition sample_llm (reply : string) (query : string) (summary : list json)
  : result string :=
  Return reply.

(** ** Search helpers: the catalog, direct queries and [/search] *)

(** [reply] is what [client.get(AGENTFACTS_DB_URL)] comes to.  A list
    is returned as it is, a dict gives its [agents] member, anything
    else and every failure give the empty list. *)
Definition fetch_agentfacts_from_db (reply : http_result) : json :=
  match (response <~ reply ;;
         ok <~ raise_for_status response ;;
         agents <~ json_body response ;;
         Return (match agents with
                 | JArr _ => agents
                 | JObj members =>
                     match Py.lookup "agents" members with
                     | Some v => v
                     | None => JArr []
                     end
                 | _ => JArr []
                 end))
  with
  | Return agents => agents
  | Raise _ => JArr []
  end.

Definition send_query_to_url (e : env) (agent_url question user_id : string) : M json :=
  try_except
    (response <- client_post e agent_url
                   (JObj [("question", JStr question); ("user_id", JStr user_id)]) ;;
     lift (raise_for_status response) ;;
     data <- lift (json_body response) ;;
     lift (py_get data "answer" (JStr (Py.str data))))
    (fun err =>
       match err with
       | TimeoutException _ =>
           ret (JStr ("Timeout connecting to agent at " ++ agent_url))
       | HTTPError msg =>
           ret (JStr ("Error communicating with agent: " ++ msg))
       | _ => ret (JStr ("Unexpected error: " ++ exn_str err))
       end).



(** The code units of the first character of a non-empty string. *)
Definition first_char (c : ascii) (rest : string) : string :=
  String c (Text.take_while (fun x => Text.between 128 191 (N_of_ascii x)) rest).

(** [v[0]]. *)
Definition py_first (v : json) : result json :=
  match v with
  | JArr (x :: _) => Return x
  | JArr [] => Raise (Exception "list index out of range")
  | JStr (String c rest) => Return (JStr (first_char c rest))
  | JStr EmptyString => Raise (Exception "string index out of range")
  | JObj _ => Raise (Exception "0")
  | _ => Raise (Exception ("'" ++ Py.type_name v ++ "' object is not subscriptable"))
  end.

Record SearchRequest : Type := {
  search_query : string;
  search_conversation_id : string;
  search_user_id : string
}.

Record SearchResponse : Type := {
  selected_agent : list (string * json);
  agent_response : string;
  search_timestamp : string;
  processing_time : string
}.

(** What [/search] depends on besides the process state. *)
Record search_env : Type := {
  peers : env;                       (* the peers and the clock *)
  db_reply : http_result;            (* client.get(AGENTFACTS_DB_URL) *)
  loads : string -> result json;     (* json.loads *)
  complete : string -> list json -> result string;  (* the completion call *)
  elapsed : string;                  (* the seconds between start and end *)
  string_error : json -> string      (* str() of the error the response model
                                        raises for an answer that is no string *)
}.

(** [SearchResponse(...)]: the response model takes a string for
    [agent_response] and nothing else. *)
Definition make_search_response (s : search_env) (selected : list (string * json))
    (answer : json) : result SearchResponse :=
  match answer with
  | JStr text =>
      Return {| selected_agent := selected;
                agent_response := text;
                search_timestamp := now (peers s);
                processing_time := elapsed s |}
  | _ => Raise (Exception (string_error s answer))
  end.

(** The endpoint URL of the selected agent: the first static endpoint,
    else the URL of the adaptive resolver, else [None]. *)
Definition selected_endpoint (selected_agent : json) : result json :=
  endpoints <~ py_get selected_agent "endpoints" (JObj []) ;;
  static_endpoints <~ py_get endpoints "static" (JArr []) ;;
  if Py.truthy static_endpoints then py_first static_endpoints
  else
    match endpoints with
    | JObj members =>
        match Py.lookup "adaptive_resolver" members with
        | Some resolver => py_get resolver "url" JNull
        | None => Return JNull
        end
    | _ => Return JNull
    end.

(** [not selected_agent]. *)
Definition not_selected (selected : option json) : bool :=
  match selected with
  | None => true
  | Some agent => negb (Py.truthy agent)
  end.

Definition selected_value (selected : option json) : json :=
  match selected with
  | None => JNull
  | Some agent => agent
  end.

Definition search_and_route (s : search_env) (request : SearchRequest)
  : M SearchResponse :=
  try_except
    (let agentfacts := fetch_agentfacts_from_db (db_reply s) in
     if negb (Py.truthy agentfacts) then
       raise (HTTPException 503 "No agents available in the database")
     else
       lift (py_len agentfacts) ;;
       catalog <- lift (py_iter agentfacts) ;;
       selected <- lift (select_best_agent (loads s) (complete s)
                           (search_query request) catalog) ;;
       if not_selected selected then
         raise (HTTPException 404 "No suitable agent found for this query")
       else
         let selected_agent := selected_value selected in
         agent_url <- lift (selected_endpoint selected_agent) ;;
         if negb (Py.truthy agent_url) then
           label <- lift (py_get selected_agent "label" JNull) ;;
           raise (HTTPException 500
                    ("Selected agent '" ++ Py.str label ++ "' has no valid endpoint"))
         else
           text <- lift (as_str agent_url "endswith") ;;
           let agent_url := query_url text in
           agent_response <-
             send_query_to_url (peers s) agent_url (search_query request)
               (search_user_id request) ;;
           id <- lift (py_get selected_agent "id" JNull) ;;
           label <- lift (py_get selected_agent "label" JNull) ;;
           description <- lift (py_get selected_agent "description" JNull) ;;
           lift (make_search_response s
                   [("id", id); ("label", label); ("description", description);
                    ("endpoint", JStr agent_url)]
                   agent_response))
    (fun err =>
       match err with
       | HTTPException _ _ => raise err
       | _ =>
           raise (HTTPException 500 ("Error processing search: " ++ exn_str err))
       end).

(** ** Vocabulary of the further statements *)

(** The value a hashable key stands for in a dict: [True] and 1 are the
    same key.  Lists and dicts stand for none. *)
Inductive key_class : Type :=
| KNone
| KNumber (z : Z)
| KText (s : string).

Definition key_of (k : json) : option key_class :=
  match k with
  | JNull => Some KNone
  | JBool b => Some (KNumber (if b then 1%Z else 0%Z))
  | JNum z => Some (KNumber z)
  | JStr s => Some (KText s)
  | JArr _ | JObj _ => None
  end.

(** The loop of the refresh does not fail on this descriptor. *)
Definition descriptor_ok (agent : json) : bool :=
  match fst (register_fetched_agent agent empty_world) with
  | Return _ => true
  | Raise _ => false
  end.

(** The descriptors the loop gets through: those before the first one
    it fails on. *)
Fixpoint stored_prefix (agents : list json) : list json :=
  match agents with
  | [] => []
  | agent :: rest => if descriptor_ok agent then agent :: stored_prefix rest else []
  end.

(** The descriptors a refresh stores for a given reply. *)
Definition refresh_stores (reply : http_result) : list json :=
  match payload_items reply with
  | Return items => stored_prefix items
  | Raise _ => []
  end.

(** The keys the descriptors of [l] bring are keys of [d]. *)
Definition keys_present (l : list json) (d : directory) : Prop :=
  forall a u x, In a l -> descriptor_entry a = Some (u, x) -> dict_get u d <> None.

(** What a refresh returns for a given reply. *)
Definition refresh_ok (reply : http_result) : bool :=
  match payload_items reply with
  | Return items => List.forallb descriptor_ok items
  | Raise _ => false
  end.

(** The catalog request gives nothing to select from: it fails, the
    status is outside 2xx, the body is not JSON, or the body is an empty
    list, an object whose [agents] member is missing or false, or a
    scalar. *)
Definition catalog_unusable (reply : http_result) : Prop :=
  match reply with
  | Raise _ => True
  | Return r =>
      raise_for_status r <> Return tt \/
      match json_body r with
      | Raise _ => True
      | Return (JArr items) => items = []
      | Return (JObj members) =>
          match Py.lookup "agents" members with
          | Some v => Py.truthy v = false
          | None => True
          end
      | Return _ => True
      end
  end.

(** An exception of the interpreter or of a library, as opposed to an
    [HTTPException] or an error of the HTTP client. *)
Definition plain (e : exn) : Prop := exists msg, e = Exception msg.

(** Every endpoint of the directory ends in [/a2a]. *)
Definition a2a_suffixed (d : directory) : Prop :=
  Forall (fun kv => Text.endswith (snd kv) "/a2a" = true) d.

(** A catalog entry with one static endpoint. *)
Definition static_agent (id url : string) : json :=
  JObj [("id", JStr id);
        ("label", JStr "Email agent");
        ("description", JStr "Sends and reads email");
        ("endpoints",
         JObj [("static", JArr [JStr url]);
               ("adaptive_resolver", JObj [("url", JStr "http://other/a2a")])])].

(** A search in which the model picks [mail] from a catalog of one. *)
Definition mail_search : search_env :=
  {| peers := alice_env;
     db_reply := registry_reply (JArr [static_agent "mail" "http://x/a2a"]);
     loads := sample_json_loads;
     complete := sample_llm (fenced (selection_text "mail"));
     elapsed := "0.5";
     string_error := fun _ => "Input should be a valid string" |}.

(** Searches over other catalogs: an object without agents, a catalog
    none of whose agents the model names, an agent without endpoints. *)
Definition search_over (catalog : json) (reply : string) : search_env :=
  {| peers := alice_env;
     db_reply := registry_reply catalog;
     loads := sample_json_loads;
     complete := sample_llm reply;
     elapsed := "0.1";
     string_error := fun _ => "Input should be a valid string" |}.


Definition mail_request : SearchRequest :=
  {| search_query := "send an email";
     search_conversation_id := "search-conv";
     search_user_id := "anonymous" |}.

(** * Properties *)

(** ** The text primitives on sample inputs *)

Example split_once : Text.split "XX" "aXXXb" = ["a"; "Xb"].
Proof. reflexivity. Qed.

Example split_adjacent : Text.split "ab" "abab" = [""; ""; ""].
Proof. reflexivity. Qed.

Example replace_every : Text.replace "/a2a" "/query" "a/a2a/a2a" = "a/query/query".
Proof. reflexivity. Qed.

Example rstrip_slashes : Text.rstrip_char "/" "x///" = "x".
Proof. reflexivity. Qed.

Example strip_both : Text.strip ("  a b" ++ LF ++ " ") = "a b".
Proof. reflexivity. Qed.

Example lower_ascii : Text.lower "Send an E-Mail_1" = "send an e-mail_1".
Proof. reflexivity. Qed.

Example decimal_samples :
  Text.decimal 120 = "120" /\ Text.decimal 0 = "0" /\ Text.decimal (-7) = "-7".
Proof. repeat split. Qed.

Example len_counts_code_points : Text.len "❌ no" = 4%nat.
Proof. reflexivity. Qed.

Example repr_values :
  Py.repr (JArr [JStr "a'b"; JNum 1; JBool true; JNull;
                 JObj [("k", JArr [JNum 1; JStr "v"])]])
  = "[" ++ dq ++ "a'b" ++ dq ++ ", 1, True, None, {'k': [1, 'v']}]".
Proof. reflexivity. Qed.

Example repr_escapes :
  Py.repr (JStr (String (ascii_of_nat 9) (String (ascii_of_nat 0)
                   (String (ascii_of_nat 127) "x\y"))))
  = "'\t\x00\x7fx\\y'".
Proof. reflexivity. Qed.

Example unwrap_fenced :
  unwrap_code_block (fenced (selection_text "mail")) = Return (selection_text "mail").
Proof. reflexivity. Qed.

Example parse_leading_mention :
  parse_a2a_request "@foo rest of message" = (Some "foo", "rest of message").
Proof. reflexivity. Qed.

Example mentions_all : extract_agent_mentions "x@a-1 @@b_c! @ d" = ["a-1"; "b_c"].
Proof. reflexivity. Qed.

(** ** Text lemmas *)

Lemma append_nil_r (s : string) : s ++ "" = s.
Proof. induction s as [|c s IH]; simpl; [reflexivity | now rewrite IH]. Qed.

Lemma append_assoc (a b c : string) : (a ++ b) ++ c = a ++ (b ++ c).
Proof. induction a as [|x a IH]; simpl; [reflexivity | now rewrite IH]. Qed.

Lemma is_at_eq (c : ascii) : Text.is_at c = true -> c = "@"%char.
Proof.
  unfold Text.is_at. intros H. apply N.eqb_eq in H.
  rewrite <- (ascii_N_embedding c), H. reflexivity.
Qed.

Lemma take_drop_while (p : ascii -> bool) (s : string) :
  s = Text.take_while p s ++ Text.drop_while p s.
Proof.
  induction s as [|c s IH]; simpl; [reflexivity|].
  destruct (p c); simpl; [now rewrite <- IH | reflexivity].
Qed.

Lemma all_chars_take_while (p : ascii -> bool) (s : string) :
  Text.all_chars p (Text.take_while p s) = true.
Proof.
  induction s as [|c s IH]; simpl; [reflexivity|].
  destruct (p c) eqn:E; simpl; [now rewrite E | reflexivity].
Qed.

Lemma take_while_drop_while (p : ascii -> bool) (s : string) :
  Text.take_while p (Text.drop_while p s) = "".
Proof.
  induction s as [|c s IH]; simpl; [reflexivity|].
  destruct (p c) eqn:E; simpl; [assumption | now rewrite E].
Qed.

Lemma strip_prefix_app (a b : string) : Text.strip_prefix a (a ++ b) = Some b.
Proof.
  induction a as [|c a IH]; simpl; [now destruct b|].
  now rewrite Ascii.eqb_refl.
Qed.

Lemma strip_prefix_sound (a s r : string) :
  Text.strip_prefix a s = Some r -> s = a ++ r.
Proof.
  revert s; induction a as [|c a IH]; intros s H.
  - destruct s; simpl in H; now inversion H.
  - destruct s as [|d s]; simpl in H; [discriminate|].
    destruct (Ascii.eqb c d) eqn:E; [|discriminate].
    apply Ascii.eqb_eq in E; subst d. simpl. now rewrite (IH _ H).
Qed.

(** ** The mention parser *)

Lemma extract_of_mention (pre : string) (c : ascii) (post : string) :
  Text.is_mention_char c = true ->
  extract_agent_mentions (pre ++ String "@" (String c post)) <> [].
Proof.
  intros Hc. induction pre as [|d pre IH]; simpl.
  - rewrite Hc. discriminate.
  - destruct (Text.is_at d); [|exact IH].
    destruct (Text.take_while _ _); [exact IH | discriminate].
Qed.

Lemma extract_nil_no_mention (s : string) :
  extract_agent_mentions s = [] -> ~ has_mention s.
Proof.
  intros H (pre & c & post & -> & Hc). now apply (extract_of_mention pre c post).
Qed.

(** A string whose scan is empty and which is followed by something that
    does not start with a mention character scans as empty behind an
    at-sign too. *)
Lemma take_while_prefix_nil (p : ascii -> bool) (pre rest : string) (c : ascii) :
  Text.take_while p (pre ++ String c rest) = "" -> p c = false ->
  Text.take_while p pre = "".
Proof.
  destruct pre as [|d pre]; simpl; [reflexivity|].
  destruct (p d); [discriminate | reflexivity].
Qed.

Lemma strip_prefix_head_false (p : ascii -> bool) (t s : string) :
  t <> "" -> Text.all_chars p t = true -> Text.take_while p s = "" ->
  Text.strip_prefix t s = None.
Proof.
  intros Ht Hall Hs. destruct t as [|a t]; [congruence|].
  destruct s as [|b s]; simpl; [reflexivity|].
  destruct (Ascii.eqb a b) eqn:E; [|reflexivity].
  apply Ascii.eqb_eq in E; subst b. simpl in Hall, Hs.
  destruct (p a); [discriminate Hs | discriminate Hall].
Qed.

Lemma sub_once_cons (a c : ascii) (t s : string) :
  sub_once (String a t) (String c s)
  = if Ascii.eqb a c then
      match Text.strip_prefix t s with
      | Some rest => Text.drop_while Text.is_space rest
      | None => String c (sub_once (String a t) s)
      end
    else String c (sub_once (String a t) s).
Proof.
  cbn [sub_once Text.strip_prefix]. now destruct (Ascii.eqb a c).
Qed.

Lemma extract_first (s : string) (t : string) (more : list string) :
  extract_agent_mentions s = t :: more ->
  exists pre post,
    s = pre ++ String "@" (t ++ post) /\
    extract_agent_mentions pre = [] /\
    t <> "" /\
    Text.all_chars Text.is_mention_char t = true /\
    Text.take_while Text.is_mention_char post = "" /\
    sub_once (String "@" t) s = pre ++ Text.drop_while Text.is_space post.
Proof.
  revert t more. induction s as [|c s IH]; intros t more H; [discriminate|].
  simpl in H. destruct (Text.is_at c) eqn:Hat.
  - apply is_at_eq in Hat; subst c.
    destruct (Text.take_while Text.is_mention_char s) as [|r run] eqn:Hrun.
    + destruct (IH _ _ H) as (pre & post & Hs & Hpre & Ht & Hall & Hpost & Hsub).
      exists (String "@" pre), post. repeat split; try assumption.
      * simpl. now rewrite Hs.
      * simpl. rewrite Hs in Hrun.
        now rewrite (take_while_prefix_nil _ _ _ _ Hrun eq_refl).
      * rewrite sub_once_cons, Ascii.eqb_refl.
        rewrite (strip_prefix_head_false _ _ _ Ht Hall Hrun).
        simpl. now rewrite Hsub.
    + inversion H; subst t more; clear H.
      exists "", (Text.drop_while Text.is_mention_char s).
      rewrite <- Hrun. repeat split.
      * simpl. now rewrite <- take_drop_while.
      * rewrite Hrun. discriminate.
      * apply all_chars_take_while.
      * apply take_while_drop_while.
      * rewrite sub_once_cons, Ascii.eqb_refl.
        rewrite (take_drop_while Text.is_mention_char s) at 2.
        now rewrite strip_prefix_app.
  - destruct (IH _ _ H) as (pre & post & Hs & Hpre & Ht & Hall & Hpost & Hsub).
    exists (String c pre), post. repeat split; try assumption.
    + simpl. now rewrite Hs.
    + simpl. now rewrite Hat.
    + assert (Hne : Ascii.eqb "@" c = false).
      { apply Ascii.eqb_neq. intros <-. discriminate Hat. }
      rewrite sub_once_cons, Hne. simpl. now rewrite Hsub.
Qed.





Lemma has_mention_extract (s : string) :
  has_mention s -> extract_agent_mentions s <> [].
Proof. intros (pre & c & post & -> & Hc). now apply extract_of_mention. Qed.

Lemma extract_cons_has_mention (s t : string) (more : list string) :
  extract_agent_mentions s = t :: more -> has_mention s.
Proof.
  intros E.
  destruct (extract_first _ _ _ E) as (pre & post & Hs & _ & Ht & Hall & _).
  destruct t as [|c t]; [congruence|].
  exists pre, c, (t ++ post). split; [exact Hs|].
  simpl in Hall. now destruct (Text.is_mention_char c).
Qed.

Lemma has_mention_dec (s : string) : has_mention s \/ ~ has_mention s.
Proof.
  destruct (extract_agent_mentions s) as [|t more] eqn:E.
  - right. now apply extract_nil_no_mention.
  - left. now apply (extract_cons_has_mention s t more).
Qed.

Lemma parse_a2a_request_none (message : string) :
  ~ has_mention message -> parse_a2a_request message = (None, message).
Proof.
  intros Hno. unfold parse_a2a_request.
  destruct (extract_agent_mentions message) as [|t more] eqn:E; [reflexivity|].
  destruct Hno. now apply (extract_cons_has_mention message t more).
Qed.

Lemma parse_a2a_request_some (message : string) :
  has_mention message ->
  exists pre target post,
    message = pre ++ "@" ++ target ++ post /\
    ~ has_mention pre /\
    target <> "" /\
    Text.all_chars Text.is_mention_char target = true /\
    Text.take_while Text.is_mention_char post = "" /\
    parse_a2a_request message
    = (Some target, pre ++ Text.drop_while Text.is_space post).
Proof.
  intros Hm. apply has_mention_extract in Hm. unfold parse_a2a_request.
  destruct (extract_agent_mentions message) as [|t more] eqn:E; [congruence|].
  destruct (extract_first _ _ _ E) as (pre & post & Hs & Hpre & Ht & Hall & Hpost & Hsub).
  exists pre, t, post. repeat split; try assumption.
  - now apply extract_nil_no_mention.
  - simpl. now rewrite Hsub.
Qed.



(** ** Substrings *)







(** ** The message forwarder *)

(** Unfold the operations of the state-and-exception monad. *)
Ltac run_monad :=
  unfold try_except, bind, lift, ret, raise, log, get_known_agents, client_post.

(** Close a case of [send_known] in which the forward fails: the answer
    is one of the error texts, and the premises of a good answer clash
    with the equations [Hp], [Hs], [Hb] of the case. *)
Ltac failed_forward :=
  simpl; eexists; split; [reflexivity|]; split;
  [intros _; eexists; split; [reflexivity|]; eauto 6
  |intros ? ? Hr Hs' Hb'; inversion Hr; subst;
   congruence].

Lemma send_unknown (e : env) (agent_id message cid : string) (w : world) :
  dict_get (JStr agent_id) (KNOWN_AGENTS w) = None ->
  send_message_to_agent e agent_id message cid w
  = (Return (JStr ("❌ Agent '" ++ agent_id ++ "' not found. Known agents: "
                     ++ Py.repr (JArr (dict_keys (KNOWN_AGENTS w))))), w).
Proof.
  intros H. unfold send_message_to_agent, bind, get_known_agents.
  now rewrite H.
Qed.

Lemma send_known (e : env) (agent_id message cid agent_url : string) (w : world) :
  dict_get (JStr agent_id) (KNOWN_AGENTS w) = Some agent_url ->
  exists answer,
    send_message_to_agent e agent_id message cid w
    = (Return answer, posted w (query_url agent_url) (query_body message)) /\
    (forward_succeeds e agent_id message (KNOWN_AGENTS w) = false ->
     exists err,
       answer = JStr err /\ forward_error_text agent_id (KNOWN_AGENTS w) err) /\
    (forall r members,
       post e (query_url agent_url) (query_body message) = Return r ->
       raise_for_status r = Return tt ->
       json_body r = Return (JObj members) ->
       answer = match Py.lookup "answer" members with
                | Some v => v
                | None => JStr (Py.str (JObj members))
                end).
Proof.
  intros H.
  unfold send_message_to_agent, forward_succeeds, forward_error_text.
  run_monad. rewrite H.
  fold (posted w (query_url agent_url) (query_body message)).
  destruct (post e (query_url agent_url) (query_body message)) as [r|err] eqn:Hp.
  - destruct (raise_for_status r) as [[]|err] eqn:Hs.
    + destruct (json_body r) as [data|err] eqn:Hb.
      * destruct data as [| | | | |members]; try failed_forward.
        simpl. eexists. split; [reflexivity|]. split; [discriminate|].
        intros r' members' Hr _ Hb'. inversion Hr; subst r'.
        rewrite Hb in Hb'. now inversion Hb'.
      * destruct err; failed_forward.
    + destruct err; failed_forward.
  - destruct err; failed_forward.
Qed.

(** ** The [/a2a] handler *)

Lemma py_get_text (message : A2AMessage) :
  py_get (JObj (content message)) "text" (JStr "") = Return (message_text message).
Proof. reflexivity. Qed.

Lemma a2a_endpoint_no_target (e : env) (message : A2AMessage) (text : string) (w : world) :
  message_text message = JStr text ->
  parse_a2a_request text = (None, text) ->
  a2a_endpoint e message w
  = (Raise (HTTPException 400 (no_target_detail (JStr text))),
     logged (logged w (incoming message)) (no_target message)).
Proof.
  intros Ht Hp. unfold a2a_endpoint. rewrite py_get_text.
  unfold incoming, no_target. rewrite Ht.
  run_monad. unfold parse_a2a_value.
  rewrite Hp. reflexivity.
Qed.

Lemma a2a_endpoint_routed (e : env) (message : A2AMessage) (text target clean : string)
    (w w1 : world) (answer : json) :
  message_text message = JStr text ->
  parse_a2a_request text = (Some target, clean) ->
  target <> "" ->
  send_message_to_agent e target clean (conversation_id message)
    (logged (logged w (incoming message)) (routing message target clean))
  = (Return answer, w1) ->
  a2a_endpoint e message w
  = match py_len answer with
    | Return n =>
        (Return (forwarded message e target answer),
         logged w1 (success message target n))
    | Raise err =>
        (Raise (HTTPException 500 ("Error processing A2A message: " ++ exn_str err)),
         logged w1 (error ("ERROR | conversation_id=" ++ conversation_id message
                             ++ " | error=" ++ exn_str err)))
    end.
Proof.
  intros Ht Hp Hne Hs. unfold a2a_endpoint. rewrite py_get_text.
  unfold incoming, routing in Hs. rewrite Ht in *.
  run_monad. unfold parse_a2a_value.
  rewrite Hp. cbn [fst snd not_target target_text].
  apply String.eqb_neq in Hne. rewrite Hne.
  unfold logged, info in Hs. cbn [KNOWN_AGENTS a2a_log outbox] in Hs.
  cbn [KNOWN_AGENTS a2a_log outbox].
  rewrite Hs.
  destruct answer; reflexivity.
Qed.

Lemma send_total (e : env) (agent_id message cid : string) (w : world) :
  exists answer w1,
    send_message_to_agent e agent_id message cid w = (Return answer, w1) /\
    KNOWN_AGENTS w1 = KNOWN_AGENTS w /\
    a2a_log w1 = a2a_log w /\
    (forward_succeeds e agent_id message (KNOWN_AGENTS w) = false ->
     exists err,
       answer = JStr err /\ forward_error_text agent_id (KNOWN_AGENTS w) err).
Proof.
  destruct (dict_get (JStr agent_id) (KNOWN_AGENTS w)) as [agent_url|] eqn:H.
  - destruct (send_known e agent_id message cid agent_url w H)
      as (answer & Hrun & Hfail & _).
    exists answer, (posted w (query_url agent_url) (query_body message)).
    repeat split; assumption || reflexivity.
  - eexists; exists w. split; [apply send_unknown, H|].
    repeat split. intros _. eexists; split; [reflexivity|]. left; reflexivity.
Qed.

(** What the handler does with a message that names a target. *)
Lemma a2a_routed (e : env) (message : A2AMessage) (text : string) (w : world) :
  message_text message = JStr text ->
  has_mention text ->
  exists target clean answer w1,
    parse_a2a_request text = (Some target, clean) /\
    send_message_to_agent e target clean (conversation_id message)
      (logged (logged w (incoming message)) (routing message target clean))
    = (Return answer, w1) /\
    KNOWN_AGENTS w1 = KNOWN_AGENTS w /\
    a2a_log w1 = (a2a_log w ++ [incoming message; routing message target clean])%list /\
    (forward_succeeds e target clean (KNOWN_AGENTS w) = false ->
     exists err, answer = JStr err /\ forward_error_text target (KNOWN_AGENTS w) err) /\
    a2a_endpoint e message w
    = match py_len answer with
      | Return n =>
          (Return (forwarded message e target answer),
           logged w1 (success message target n))
      | Raise err =>
          (Raise (HTTPException 500 ("Error processing A2A message: " ++ exn_str err)),
           logged w1 (error ("ERROR | conversation_id=" ++ conversation_id message
                               ++ " | error=" ++ exn_str err)))
      end.
Proof.
  intros Ht Hm.
  destruct (parse_a2a_request_some text Hm)
    as (pre & target & post & _ & _ & Hne & _ & _ & Hp).
  set (clean := pre ++ Text.drop_while Text.is_space post) in *.
  destruct (send_total e target clean (conversation_id message)
              (logged (logged w (incoming message)) (routing message target clean)))
    as (answer & w1 & Hrun & Hk & Hl & Hfail).
  exists target, clean, answer, w1. repeat split; try assumption.
  - rewrite Hl. simpl. now rewrite <- app_assoc.
  - now apply (a2a_endpoint_routed e message text target clean w w1 answer).
Qed.



(** A text that is not a string makes the handler fail with HTTP 500. *)
Lemma a2a_endpoint_not_text (e : env) (message : A2AMessage) (w : world) :
  (forall text, message_text message <> JStr text) ->
  exists detail w', a2a_endpoint e message w = (Raise (HTTPException 500 detail), w').
Proof.
  intros H. unfold a2a_endpoint. rewrite py_get_text.
  run_monad. unfold parse_a2a_value.
  destruct (message_text message) as [| | |text| |];
    try (eexists; eexists; reflexivity).
  now destruct (H text).
Qed.

(** Every response repeats the conversation identifier of its request. *)
Lemma a2a_conversation_id (e : env) (message : A2AMessage) (w w' : world)
    (resp : A2AResponse) :
  a2a_endpoint e message w = (Return resp, w') ->
  response_conversation_id resp = conversation_id message.
Proof.
  intros H.
  destruct (message_text message) as [| | |text| |] eqn:Ht.
  1-3, 5-6:
    destruct (a2a_endpoint_not_text e message w) as (d & w0 & Hr);
    [intros text; rewrite Ht; discriminate | rewrite Hr in H; discriminate H].
  destruct (has_mention_dec text) as [Hm|Hno].
  - destruct (a2a_routed e message text w Ht Hm)
      as (target & clean & answer & w1 & _ & _ & _ & _ & _ & Hrun).
    rewrite Hrun in H. destruct (py_len answer); inversion H. reflexivity.
  - rewrite (a2a_endpoint_no_target e message text w Ht) in H;
      [discriminate H | now apply parse_a2a_request_none].
Qed.

(** C3.  With [alice] registered at [http://x/a2a], the message
    ["@alice hello"] of conversation ["c1"] makes the handler post once,
    to [http://x/query], the body [{"question": "hello", "user_id":
    "agent-" + own identifier}]; when the peer answers [{"answer":
    "hi"}] the response text is ["[Forwarded to @alice]\n\nhi"] and the
    conversation identifier is ["c1"].  Every response of the handler
    carries the conversation identifier of its request. *)
Theorem a2a_forwards_to_alice
    (e : env) (message : A2AMessage) (w : world) (r : response) :
  message_text message = JStr "@alice hello" ->
  conversation_id message = "c1" ->
  dict_get (JStr "alice") (KNOWN_AGENTS w) = Some "http://x/a2a" ->
  post e "http://x/query" (query_body "hello") = Return r ->
  raise_for_status r = Return tt ->
  json_body r = Return (JObj [("answer", JStr "hi")]) ->
  (exists resp w',
     a2a_endpoint e message w = (Return resp, w') /\
     outbox w'
     = (outbox w ++
        [{| req_url := "http://x/query";
            req_json := JObj [("question", JStr "hello");
                              ("user_id", JStr ("agent-" ++ MY_AGENT_USERNAME))] |}])%list /\
     Py.lookup "text" (response_content resp)
     = Some (JStr ("[Forwarded to @alice]" ++ LF ++ LF ++ "hi")) /\
     response_conversation_id resp = "c1") /\
  (forall message0 w0 resp0 w1,
     a2a_endpoint e message0 w0 = (Return resp0, w1) ->
     response_conversation_id resp0 = conversation_id message0).
Proof.
  intros Ht Hc Hd Hp Hs Hb. split.
  - set (w0 := logged (logged w (incoming message)) (routing message "alice" "hello")).
    destruct (send_known e "alice" "hello" (conversation_id message) "http://x/a2a" w0 Hd)
      as (answer & Hrun & _ & Hans).
    specialize (Hans r _ Hp Hs Hb). simpl in Hans. subst answer.
    assert (Hparse : parse_a2a_request "@alice hello" = (Some "alice", "hello"))
      by reflexivity.
    assert (Hne : "alice" <> "") by discriminate.
    rewrite (a2a_endpoint_routed e message _ _ _ w _ _ Ht Hparse Hne Hrun).
    cbn [py_len]. eexists; eexists. split; [reflexivity|].
    repeat split. simpl. now rewrite Hc.
  - intros message0 w0 resp0 w1. apply a2a_conversation_id.
Qed.

Lemma a2a_forwards_to_alice_witness :
  exists resp w',
    a2a_endpoint alice_env (user_message "@alice hello" "c1") alice_world
    = (Return resp, w') /\
    outbox w'
    = [{| req_url := "http://x/query";
          req_json := JObj [("question", JStr "hello");
                            ("user_id", JStr "agent-mimothecalico")] |}] /\
    Py.lookup "text" (response_content resp)
    = Some (JStr ("[Forwarded to @alice]" ++ LF ++ LF ++ "hi")) /\
    response_conversation_id resp = "c1".
Proof.
  exact (proj1 (a2a_forwards_to_alice alice_env (user_message "@alice hello" "c1")
                  alice_world
                  {| status_code := 200; status_error := "";
                     json_body := Return (JObj [("answer", JStr "hi")]) |}
                  eq_refl eq_refl eq_refl eq_refl eq_refl eq_refl)).
Defined.



(** An answer that has no length is not a failed forward, and it is the
    one case in which a routed message ends in HTTP 500. *)
Example a2a_answer_without_length :
  fst (a2a_endpoint numeric_env (user_message "@alice hello" "c1") alice_world)
  = Raise (HTTPException 500
             "Error processing A2A message: object of type 'int' has no len()").
Proof. reflexivity. Qed.






(** ** The directory *)

Lemma py_eq_refl_hashable (k : json) : Py.hashable k = true -> Py.eq k k = true.
Proof.
  destruct k as [|b|z|s| |]; simpl; try discriminate; intros _.
  - reflexivity.
  - now destruct b.
  - apply Z.eqb_refl.
  - apply String.eqb_refl.
Qed.

(** Equality with a hashable value is transitive from the left. *)
Lemma py_eq_hashable_trans (k' u k : json) :
  Py.hashable u = true -> Py.eq k' u = true -> Py.eq k' k = true ->
  Py.eq u k = true.
Proof.
  intros Hu H1 H2.
  destruct u as [|b|z|s| |]; try discriminate Hu;
    destruct k' as [|b'|z'|s'|l'|f']; simpl in H1; try discriminate H1;
    destruct k as [|b0|z0|s0|l0|f0]; simpl in H2; try discriminate H2;
    simpl; try reflexivity;
    repeat match goal with
           | H : Z.eqb _ _ = true |- _ => apply Z.eqb_eq in H
           | H : String.eqb _ _ = true |- _ => apply String.eqb_eq in H
           end;
    try (apply Z.eqb_eq; congruence);
    try (apply String.eqb_eq; congruence).
Qed.

Lemma dict_get_set_same (k : json) (v : string) (d : directory) :
  Py.hashable k = true -> dict_get k (dict_set k v d) = Some v.
Proof.
  intros Hk. induction d as [|[k' v'] d IH]; simpl.
  - now rewrite py_eq_refl_hashable.
  - destruct (Py.eq k' k) eqn:E; simpl; now rewrite E.
Qed.

Lemma dict_get_set_other (u k : json) (v : string) (d : directory) :
  Py.hashable u = true -> Py.eq u k = false ->
  dict_get k (dict_set u v d) = dict_get k d.
Proof.
  intros Hu Hne. induction d as [|[k' v'] d IH]; simpl.
  - now rewrite Hne.
  - destruct (Py.eq k' u) eqn:E; simpl.
    + destruct (Py.eq k' k) eqn:E'; [|reflexivity].
      now rewrite (py_eq_hashable_trans k' u k Hu E E') in Hne.
    + destruct (Py.eq k' k); [reflexivity | exact IH].
Qed.

Lemma dict_set_keeps_keys (u k : json) (v x : string) (d : directory) :
  dict_get k d = Some x -> exists x', dict_get k (dict_set u v d) = Some x'.
Proof.
  induction d as [|[k' v'] d IH]; simpl; [discriminate|].
  destruct (Py.eq k' k) eqn:E.
  - intros _. destruct (Py.eq k' u); simpl; rewrite E; eauto.
  - intros H. destruct (Py.eq k' u); simpl; rewrite E; eauto.
Qed.

Lemma descriptor_entry_hashable (agent k : json) (v : string) :
  descriptor_entry agent = Some (k, v) ->
  k = descriptor_id agent /\ Py.hashable k = true.
Proof.
  unfold descriptor_entry. destruct agent; try discriminate.
  destruct (_ || _)%bool; [discriminate|].
  destruct (descriptor_url _); try discriminate.
  destruct (Py.hashable _) eqn:E; [|discriminate].
  intros H; inversion H; subst. now split.
Qed.

(** One turn of the loop: it stores the entry of the descriptor, or
    raises and leaves the state as it was. *)
Lemma register_fetched_agent_run (agent : json) (w : world) :
  (exists e, register_fetched_agent agent w = (Raise e, w)) \/
  register_fetched_agent agent w
  = (Return tt, with_known_agents w (store (descriptor_entry agent) (KNOWN_AGENTS w))).
Proof.
  unfold register_fetched_agent, descriptor_entry.
  destruct agent as [| | | | |members];
    try (left; eexists; reflexivity).
  unfold bind, lift, ret. cbn [py_get].
  fold (descriptor_id (JObj members)). fold (descriptor_url (JObj members)).
  destruct (_ || _)%bool.
  - right. destruct w; reflexivity.
  - destruct (descriptor_url (JObj members)) as [| | |url| |];
      try (left; eexists; reflexivity).
    cbn [as_str]. unfold set_known_agent. fold (a2a_url url).
    destruct (Py.hashable (descriptor_id (JObj members)));
      [right; reflexivity | left; eexists; reflexivity].
Qed.

Lemma register_fetched_cons (agent : json) (agents : list json) (w : world) :
  register_fetched (agent :: agents) w
  = match register_fetched_agent agent w with
    | (Return _, w') => register_fetched agents w'
    | (Raise e, w') => (Raise e, w')
    end.
Proof.
  cbn [register_fetched]. unfold bind.
  now destruct (register_fetched_agent agent w) as [[[]|e] w'].
Qed.

(** The loop: all descriptors stored, or those before the first one the
    loop fails on. *)
Lemma register_fetched_run (agents : list json) (w : world) :
  register_fetched agents w
  = (Return tt, with_known_agents w (store_all agents (KNOWN_AGENTS w)))
  \/ exists e done bad rest,
       agents = (done ++ bad :: rest)%list /\
       register_fetched agents w
       = (Raise e, with_known_agents w (store_all done (KNOWN_AGENTS w))) /\
       register_fetched_agent bad
         (with_known_agents w (store_all done (KNOWN_AGENTS w)))
       = (Raise e, with_known_agents w (store_all done (KNOWN_AGENTS w))).
Proof.
  revert w. induction agents as [|agent agents IH]; intros w.
  - left. destruct w; reflexivity.
  - rewrite register_fetched_cons.
    destruct (register_fetched_agent_run agent w) as [(e & He)|Hok].
    + right. exists e, [], agent, agents. rewrite He.
      replace (with_known_agents w (store_all [] (KNOWN_AGENTS w))) with w
        by (destruct w; reflexivity).
      auto.
    + rewrite Hok.
      set (w1 := with_known_agents w (store (descriptor_entry agent) (KNOWN_AGENTS w))).
      destruct (IH w1) as [Hall|(e & done & bad & rest & Hsplit & Hrun & Hbad)].
      * left. rewrite Hall. reflexivity.
      * right. exists e, (agent :: done), bad, rest. subst agents.
        repeat split; [rewrite Hrun; reflexivity | exact Hbad].
Qed.

Lemma fetch_run (reply : http_result) (w : world) :
  fetch_agents_from_registry reply w
  = match payload_items reply with
    | Raise _ => (Return false, w)
    | Return items =>
        match register_fetched items w with
        | (Return _, w') => (Return true, w')
        | (Raise _, w') => (Return false, w')
        end
    end.
Proof.
  unfold fetch_agents_from_registry, payload_items, try_except, bind, lift, ret, rbind.
  destruct reply as [r|e]; [|reflexivity].
  destruct (raise_for_status r) as [[]|e]; [|reflexivity].
  destruct (json_body r) as [data|e]; [|reflexivity].
  destruct (py_get data "agents" (JArr [])) as [agents|e]; [|reflexivity].
  destruct (py_len _) as [n|e]; [|reflexivity].
  destruct (py_iter _) as [items|e]; [|reflexivity].
  destruct (register_fetched items w) as [[[]|e] w']; reflexivity.
Qed.

Lemma with_known_agents_same (w : world) : with_known_agents w (KNOWN_AGENTS w) = w.
Proof. now destruct w. Qed.

(** The refresh as a whole: it returns a boolean, and the directory it
    leaves holds the entries of a prefix [done] of the descriptors: all
    of them on success, those before the failing one otherwise. *)
Lemma fetch_outcome (reply : http_result) (w : world) :
  exists ok done,
    fetch_agents_from_registry reply w
    = (Return ok, with_known_agents w (store_all done (KNOWN_AGENTS w))) /\
    match payload_items reply with
    | Raise _ => ok = false /\ done = []
    | Return items =>
        exists rest,
          items = (done ++ rest)%list /\
          (ok = true -> rest = []) /\
          (ok = false ->
           exists bad rest' e,
             rest = bad :: rest' /\
             register_fetched_agent bad
               (with_known_agents w (store_all done (KNOWN_AGENTS w)))
             = (Raise e, with_known_agents w (store_all done (KNOWN_AGENTS w))))
    end.
Proof.
  rewrite fetch_run. destruct (payload_items reply) as [items|e].
  - destruct (register_fetched_run items w)
      as [Hall|(e & done & bad & rest & Hsplit & Hrun & Hbad)].
    + rewrite Hall. exists true, items. split; [reflexivity|].
      exists []. rewrite app_nil_r. repeat split; [discriminate].
    + rewrite Hrun. exists false, done. split; [reflexivity|].
      exists (bad :: rest). repeat split; [assumption|discriminate|].
      intros _. exists bad, rest, e. now split.
  - exists false, []. cbn [store_all fold_left].
    now rewrite with_known_agents_same.
Qed.

Lemma store_all_app (l m : list json) (d : directory) :
  store_all (l ++ m) d = store_all m (store_all l d).
Proof. unfold store_all. apply fold_left_app. Qed.

Lemma store_keeps_keys (entry : option (json * string)) (k : json) (x : string)
    (d : directory) :
  dict_get k d = Some x -> exists x', dict_get k (store entry d) = Some x'.
Proof.
  destruct entry as [[u v]|]; simpl; [apply dict_set_keeps_keys | eauto].
Qed.

Lemma store_all_keeps_keys (l : list json) (k : json) (x : string) (d : directory) :
  dict_get k d = Some x -> exists x', dict_get k (store_all l d) = Some x'.
Proof.
  revert d x. induction l as [|a l IH]; intros d x H; [eauto|].
  destruct (store_keeps_keys (descriptor_entry a) k x d H) as (x' & Hx').
  exact (IH _ _ Hx').
Qed.

Lemma store_all_other (l : list json) (k : json) (d : directory) :
  (forall a, In a l -> Py.eq (descriptor_id a) k = false) ->
  dict_get k (store_all l d) = dict_get k d.
Proof.
  revert d. induction l as [|a l IH]; intros d H; [reflexivity|].
  cbn [store_all fold_left]. fold (store_all l (store (descriptor_entry a) d)).
  rewrite IH by (intros b Hb; apply H; now right).
  destruct (descriptor_entry a) as [[u v]|] eqn:E; [|reflexivity].
  destruct (descriptor_entry_hashable a u v E) as (-> & Hu).
  apply dict_get_set_other; [exact Hu|]. apply H. now left.
Qed.

(** Within one payload the later descriptor of an identifier wins, and
    a second refresh with the same payload changes nothing. *)
Example refresh_last_write_wins :
  let payload :=
    registry_reply
      (JObj [("agents",
              JArr [alice_descriptor; bob_descriptor;
                    JObj [("username", JStr "alice"); ("url", JStr "http://z")]])]) in
  let once := snd (fetch_agents_from_registry payload empty_world) in
  KNOWN_AGENTS once = [(JStr "alice", "http://z/a2a"); (JStr "bob", "http://y/a2a")] /\
  snd (fetch_agents_from_registry payload once) = once.
Proof. split; reflexivity. Qed.

(** C5.  The refresh does not accept a bare JSON array: whatever its
    elements, it returns [False] and stores nothing, because [.get] is
    called on the list before the list test is reached.  The object
    shape with an [agents] key is accepted, with the identifier read
    from [agent_id] or [username] and the URL from [endpoint] or [url]. *)
Theorem fetch_refuses_bare_array (text : string) (items : list json) (w : world) :
  fetch_agents_from_registry
    (Return {| status_code := 200; status_error := text;
               json_body := Return (JArr items) |}) w
  = (Return false, w) /\
  fetch_agents_from_registry (registry_reply (JArr [alice_descriptor; bob_descriptor]))
    empty_world
  = (Return false, empty_world) /\
  fetch_agents_from_registry
    (registry_reply (JObj [("agents", JArr [alice_descriptor; bob_descriptor])]))
    empty_world
  = (Return true,
     with_known_agents empty_world
       [(JStr "alice", "http://x/a2a"); (JStr "bob", "http://y/a2a")]).
Proof. repeat split. Qed.

(** C8, as stated, fails: a refresh that fails on its second descriptor
    reports the failure and has already stored the first one. *)
Lemma fetch_failure_keeps_earlier_descriptors :
  fetch_agents_from_registry
    (registry_reply (JObj [("agents", JArr [bob_descriptor; JNum 5])])) empty_world
  = (Return false, with_known_agents empty_world [(JStr "bob", "http://y/a2a")]) /\
  KNOWN_AGENTS (with_known_agents empty_world [(JStr "bob", "http://y/a2a")])
  <> KNOWN_AGENTS empty_world.
Proof. split; [reflexivity | discriminate]. Qed.

(** C8, amended.  A refresh never raises: it returns [True] or [False]
    and touches neither the log nor the outbox.  When the registry is
    unreachable, answers outside 2xx, or sends a body that is not JSON
    or not an object, or when the descriptors cannot be listed, it
    returns [False] and the directory is exactly as before.  When it
    fails on a descriptor, it returns [False] and the directory holds
    the entries of the descriptors before that one. *)
Theorem fetch_failure_is_reported (reply : http_result) (w : world) :
  exists ok w',
    fetch_agents_from_registry reply w = (Return ok, w') /\
    a2a_log w' = a2a_log w /\
    outbox w' = outbox w /\
    ((exists e, reply = Raise e) \/
     (exists r, reply = Return r /\
                (raise_for_status r <> Return tt \/
                 forall members, json_body r <> Return (JObj members))) ->
     ok = false /\ w' = w) /\
    (forall e, payload_items reply = Raise e -> ok = false /\ w' = w) /\
    (forall items,
       payload_items reply = Return items ->
       ok = false ->
       exists done bad rest,
         items = (done ++ bad :: rest)%list /\
         KNOWN_AGENTS w' = store_all done (KNOWN_AGENTS w) /\
         exists e, register_fetched_agent bad w' = (Raise e, w')).
Proof.
  destruct (fetch_outcome reply w) as (ok & done & Hrun & Hpay).
  exists ok, (with_known_agents w (store_all done (KNOWN_AGENTS w))).
  split; [exact Hrun|]. split; [reflexivity|]. split; [reflexivity|].
  assert (Hraise : forall e, payload_items reply = Raise e ->
            ok = false /\
            with_known_agents w (store_all done (KNOWN_AGENTS w)) = w).
  { intros e He. rewrite He in Hpay. destruct Hpay as (-> & ->).
    split; [reflexivity|]. apply with_known_agents_same. }
  split; [|split; [exact Hraise|]].
  - intros Hbad.
    assert (Hp : exists e, payload_items reply = Raise e).
    { destruct Hbad as [(e & ->)|(r & -> & Hr)]; [now exists e|].
      unfold payload_items, rbind.
      destruct (raise_for_status r) as [[]|e]; [|now exists e].
      destruct Hr as [Hr|Hr]; [congruence|].
      destruct (json_body r) as [data|e]; [|now exists e].
      destruct data as [| | | | |members];
        try (eexists; reflexivity).
      now destruct (Hr members). }
    destruct Hp as (e & He). exact (Hraise e He).
  - intros items Hi Hok. rewrite Hi in Hpay.
    destruct Hpay as (rest & -> & _ & Hfail).
    destruct (Hfail Hok) as (bad & rest' & e & -> & Hbad).
    exists done, bad, rest'. repeat split. now exists e.
Qed.

Lemma fetch_failure_is_reported_witness :
  fetch_agents_from_registry (Raise (HTTPError "All connection attempts failed"))
    alice_world
  = (Return false, alice_world).
Proof.
  destruct (fetch_failure_is_reported
              (Raise (HTTPError "All connection attempts failed")) alice_world)
    as (ok & w' & Hrun & _ & _ & Hbad & _).
  destruct Hbad as (-> & ->); [left; eexists; reflexivity | exact Hrun].
Defined.

(** C9.  A refresh deletes nothing: a key of the directory is still a
    key afterwards, and keeps its endpoint when no descriptor of the
    payload carries its identifier.  Within a payload the last
    descriptor stored for an identifier wins.  A registration call sets
    its own key and leaves the other entries as they were. *)
Theorem refresh_never_deletes
    (reply : http_result) (w : world) (k : json) (v : string) :
  dict_get k (KNOWN_AGENTS w) = Some v ->
  (exists v',
     dict_get k (KNOWN_AGENTS (snd (fetch_agents_from_registry reply w))) = Some v') /\
  ((forall items agent,
      payload_items reply = Return items -> In agent items ->
      Py.eq (descriptor_id agent) k = false) ->
   dict_get k (KNOWN_AGENTS (snd (fetch_agents_from_registry reply w))) = Some v) /\
  (forall before agent after u url,
     payload_items reply = Return (before ++ agent :: after)%list ->
     fst (fetch_agents_from_registry reply w) = Return true ->
     descriptor_entry agent = Some (u, url) ->
     (forall a, In a after -> Py.eq (descriptor_id a) u = false) ->
     dict_get u (KNOWN_AGENTS (snd (fetch_agents_from_registry reply w))) = Some url) /\
  (forall agent_id agent_url,
     dict_get (JStr agent_id)
       (KNOWN_AGENTS (snd (register_agent agent_id agent_url w))) = Some agent_url /\
     (exists v',
        dict_get k (KNOWN_AGENTS (snd (register_agent agent_id agent_url w)))
        = Some v') /\
     (Py.eq (JStr agent_id) k = false ->
      dict_get k (KNOWN_AGENTS (snd (register_agent agent_id agent_url w)))
      = Some v)).
Proof.
  intros Hk.
  destruct (fetch_outcome reply w) as (ok & done & Hrun & Hpay).
  rewrite Hrun. cbn [fst snd with_known_agents KNOWN_AGENTS].
  split; [now apply (store_all_keeps_keys done k v)|].
  split; [|split].
  - intros Hnot. rewrite store_all_other; [exact Hk|].
    intros a Ha. destruct (payload_items reply) as [items|e].
    + destruct Hpay as (rest & -> & _). apply (Hnot _ a eq_refl).
      apply in_or_app. now left.
    + destruct Hpay as (_ & ->). destruct Ha.
  - intros before agent after u url Hitems Hok Hentry Hafter.
    inversion Hok; subst ok. rewrite Hitems in Hpay.
    destruct Hpay as (rest & Hsplit & Hrest & _).
    rewrite (Hrest eq_refl), app_nil_r in Hsplit. subst done.
    rewrite store_all_app. cbn [store_all fold_left].
    fold (store_all after (store (descriptor_entry agent) (store_all before (KNOWN_AGENTS w)))).
    rewrite store_all_other by exact Hafter.
    rewrite Hentry. cbn [store].
    destruct (descriptor_entry_hashable agent u url Hentry) as (_ & Hu).
    now apply dict_get_set_same.
  - intros agent_id agent_url. cbn.
    split; [now apply dict_get_set_same|].
    split; [now apply (dict_set_keeps_keys _ k _ v)|].
    intros Hne. now rewrite dict_get_set_other.
Qed.

Lemma refresh_never_deletes_witness :
  dict_get (JStr "alice")
    (KNOWN_AGENTS
       (snd (fetch_agents_from_registry
               (registry_reply (JObj [("agents", JArr [bob_descriptor])]))
               alice_world)))
  = Some "http://x/a2a".
Proof.
  apply (proj1 (proj2 (refresh_never_deletes
                         (registry_reply (JObj [("agents", JArr [bob_descriptor])]))
                         alice_world (JStr "alice") "http://x/a2a" eq_refl))).
  intros items agent Hitems Hin. inversion Hitems; subst items.
  destruct Hin as [<-|[]]. reflexivity.
Defined.

(** ** The agent selector *)







Section SelectorFacts.

Variable json_loads : string -> result json.
Variable llm_call : string -> list json -> result string.


End SelectorFacts.




(** * Further properties of the router *)

(** ** Suffixes and the query URL *)

Lemma rev_string_app (a b : string) :
  Text.rev_string (a ++ b) = Text.rev_string b ++ Text.rev_string a.
Proof.
  induction a as [|c a IH]; simpl.
  - now rewrite append_nil_r.
  - now rewrite IH, append_assoc.
Qed.

Lemma rev_string_involutive (s : string) : Text.rev_string (Text.rev_string s) = s.
Proof.
  induction s as [|c s IH]; simpl; [reflexivity|].
  now rewrite rev_string_app, IH.
Qed.

Lemma endswith_app (a suffix : string) : Text.endswith (a ++ suffix) suffix = true.
Proof.
  unfold Text.endswith. now rewrite rev_string_app, strip_prefix_app.
Qed.

Lemma endswith_split (s suffix : string) :
  Text.endswith s suffix = true -> exists a, s = a ++ suffix.
Proof.
  unfold Text.endswith.
  destruct (Text.strip_prefix _ _) as [r|] eqn:E; [|discriminate].
  intros _. apply strip_prefix_sound in E. exists (Text.rev_string r).
  rewrite <- (rev_string_involutive s), E, rev_string_app.
  now rewrite rev_string_involutive.
Qed.

(** Replacing every [/a2a] in a text that ends in [/a2a] gives a text
    that ends in [/query]: no occurrence overlaps the last one. *)
Lemma replace_a2a_suffix (n : nat) (p : string) :
  String.length p <= n ->
  exists x, Text.replace_from "/a2a" "/query" 0 (p ++ "/a2a") = x ++ "/query".
Proof.
  revert p. induction n as [|n IH]; intros p Hn.
  - destruct p; [|simpl in Hn; lia]. now exists "".
  - destruct p as [|c p]; [now exists ""|].
    simpl in Hn. change (String c p ++ "/a2a") with (String c (p ++ "/a2a")).
    cbn [Text.replace_from].
    destruct (Text.strip_prefix "/a2a" (String c (p ++ "/a2a"))) as [r|] eqn:E.
    + apply strip_prefix_sound in E. simpl in E.
      destruct p as [|x [|y [|z p]]]; try (simpl in E; discriminate E).
      simpl in Hn. destruct (IH p ltac:(lia)) as (q & Hq).
      exists ("/query" ++ q). cbn. cbn in Hq. now rewrite Hq.
    + destruct (IH p ltac:(lia)) as (q & Hq). exists (String c q).
      simpl. now rewrite Hq.
Qed.

Lemma query_url_suffix (agent_url : string) :
  Text.endswith (query_url agent_url) "/query" = true.
Proof.
  unfold query_url.
  destruct (Text.endswith agent_url "/a2a") eqn:Ea.
  - destruct (endswith_split _ _ Ea) as (p & ->). unfold Text.replace.
    destruct (replace_a2a_suffix (String.length p) p (le_n _)) as (x & ->).
    apply endswith_app.
  - destruct (Text.endswith agent_url "/query") eqn:Eq; simpl.
    + exact Eq.
    + apply endswith_app.
Qed.

(** ** More on the mention parser *)









(** X1.  Whatever endpoint the directory holds for a peer, the URL the
    forwarder and [/search] post to ends in [/query]; an endpoint that
    ends in [/query] already is used as it is. *)
Theorem query_url_ends_in_query (agent_url : string) :
  Text.endswith (query_url agent_url) "/query" = true /\
  (Text.endswith agent_url "/a2a" = false ->
   Text.endswith agent_url "/query" = true ->
   query_url agent_url = agent_url).
Proof.
  split; [apply query_url_suffix|].
  intros Ha Hq. unfold query_url. now rewrite Ha, Hq.
Qed.

Lemma query_url_ends_in_query_witness : query_url "http://x/query" = "http://x/query".
Proof.
  exact (proj2 (query_url_ends_in_query "http://x/query") eq_refl eq_refl).
Defined.

(** ** Footprints of the forwarder and of the handler *)

Lemma send_footprint (e : env) (agent_id message cid : string) (w : world) :
  exists answer w1,
    send_message_to_agent e agent_id message cid w = (Return answer, w1) /\
    KNOWN_AGENTS w1 = KNOWN_AGENTS w /\
    a2a_log w1 = a2a_log w /\
    match dict_get (JStr agent_id) (KNOWN_AGENTS w) with
    | None => outbox w1 = outbox w
    | Some agent_url =>
        outbox w1
        = (outbox w ++ [{| req_url := query_url agent_url;
                           req_json := query_body message |}])%list
    end.
Proof.
  destruct (dict_get (JStr agent_id) (KNOWN_AGENTS w)) as [agent_url|] eqn:H.
  - destruct (send_known e agent_id message cid agent_url w H) as (answer & Hrun & _).
    exists answer, (posted w (query_url agent_url) (query_body message)).
    now repeat split.
  - eexists; exists w. split; [apply send_unknown, H|]. now repeat split.
Qed.

(** X4.  The forwarder never raises and never touches the directory or
    the log.  For an unknown identifier it posts nothing; for a known
    one it posts exactly one request, to the query URL of the stored
    endpoint (which ends in [/query]), carrying the message as
    [question] and the caller tag as [user_id]. *)
Theorem forwarder_footprint (e : env) (agent_id message cid : string) (w : world) :
  exists answer w1,
    send_message_to_agent e agent_id message cid w = (Return answer, w1) /\
    KNOWN_AGENTS w1 = KNOWN_AGENTS w /\
    a2a_log w1 = a2a_log w /\
    match dict_get (JStr agent_id) (KNOWN_AGENTS w) with
    | None => outbox w1 = outbox w
    | Some agent_url =>
        outbox w1
        = (outbox w ++
           [{| req_url := query_url agent_url;
               req_json := JObj [("question", JStr message);
                                 ("user_id", JStr ("agent-" ++ MY_AGENT_USERNAME))] |}])%list /\
        Text.endswith (query_url agent_url) "/query" = true
    end.
Proof.
  destruct (send_footprint e agent_id message cid w)
    as (answer & w1 & Hrun & Hk & Hl & Ho).
  exists answer, w1. repeat split; try assumption.
  destruct (dict_get (JStr agent_id) (KNOWN_AGENTS w)); [|exact Ho].
  split; [exact Ho | apply query_url_suffix].
Qed.

(** X5.  Registration and lookup compose: right after
    [register_agent id url] a message for [id] is posted to the query
    URL of [url], whatever the directory held before, and a 2xx answer
    object with an [answer] member gives that member back. *)
Theorem registered_agent_is_reachable
    (e : env) (id url message cid : string) (w : world) :
  exists answer w1,
    send_message_to_agent e id message cid (snd (register_agent id url w))
    = (Return answer, w1) /\
    outbox w1
    = (outbox w ++ [{| req_url := query_url url; req_json := query_body message |}])%list /\
    (forall r members v,
       post e (query_url url) (query_body message) = Return r ->
       raise_for_status r = Return tt ->
       json_body r = Return (JObj members) ->
       Py.lookup "answer" members = Some v ->
       answer = v).
Proof.
  set (w0 := snd (register_agent id url w)).
  assert (Hget : dict_get (JStr id) (KNOWN_AGENTS w0) = Some url)
    by (apply dict_get_set_same; reflexivity).
  destruct (send_known e id message cid url w0 Hget) as (answer & Hrun & _ & Hans).
  exists answer, (posted w0 (query_url url) (query_body message)).
  split; [exact Hrun|]. split; [reflexivity|].
  intros r members v Hp Hs Hb Hv. rewrite (Hans r members Hp Hs Hb). now rewrite Hv.
Qed.

Lemma registered_agent_is_reachable_witness :
  exists w1,
    send_message_to_agent alice_env "carol" "hello" "c1"
      (snd (register_agent "carol" "http://x" empty_world))
    = (Return (JStr "hi"), w1) /\
    outbox w1 = [{| req_url := "http://x/query"; req_json := query_body "hello" |}].
Proof.
  destruct (registered_agent_is_reachable alice_env "carol" "http://x" "hello" "c1"
              empty_world) as (answer & w1 & Hrun & Hout & Hans).
  exists w1. split; [|exact Hout].
  rewrite Hrun.
  now rewrite (Hans _ [("answer", JStr "hi")] (JStr "hi") eq_refl eq_refl eq_refl eq_refl).
Defined.

Lemma dict_set_keys (k : json) (v : string) (d : directory) :
  dict_keys (dict_set k v d)
  = match dict_get k d with
    | Some _ => dict_keys d
    | None => (dict_keys d ++ [k])%list
    end.
Proof.
  induction d as [|[k' v'] d IH]; [reflexivity|].
  cbn [dict_set dict_get]. destruct (Py.eq k' k); [reflexivity|].
  cbn [dict_keys map fst]. fold (dict_keys (dict_set k v d)). rewrite IH.
  now destruct (dict_get k d).
Qed.

(** X6.  [register_agent] overwrites in place: for an identifier that
    is known already the keys of the directory and their order stay as
    they are, a new identifier goes last; the reported
    [total_known_agents] is the number of keys afterwards. *)
Theorem register_agent_overwrites_in_place (id url : string) (w : world) :
  let w' := snd (register_agent id url w) in
  dict_keys (KNOWN_AGENTS w')
  = match dict_get (JStr id) (KNOWN_AGENTS w) with
    | Some _ => dict_keys (KNOWN_AGENTS w)
    | None => (dict_keys (KNOWN_AGENTS w) ++ [JStr id])%list
    end /\
  a2a_log w' = a2a_log w /\
  outbox w' = outbox w /\
  exists text,
    fst (register_agent id url w)
    = Return (JObj [("message", JStr text);
                    ("agent_id", JStr id);
                    ("agent_url", JStr url);
                    ("total_known_agents",
                     JNum (Z.of_nat (List.length (dict_keys (KNOWN_AGENTS w')))))]).
Proof.
  cbn. split; [apply dict_set_keys|]. repeat split.
  eexists. unfold dict_keys. now rewrite length_map.
Qed.

Lemma a2a_endpoint_not_text_run (e : env) (message : A2AMessage) (w : world) :
  (forall text, message_text message <> JStr text) ->
  exists text,
    a2a_endpoint e message w
    = (Raise (HTTPException 500 ("Error processing A2A message: " ++ text)),
       logged (logged w (incoming message))
         (error ("ERROR | conversation_id=" ++ conversation_id message
                   ++ " | error=" ++ text))).
Proof.
  intros H. unfold a2a_endpoint. rewrite py_get_text. unfold incoming.
  run_monad. unfold parse_a2a_value.
  destruct (message_text message) as [| | |text| |];
    try (eexists; reflexivity).
  now destruct (H text).
Qed.

(** X7.  Whatever the request holds, the handler leaves the directory
    as it is, appends the INCOMING record and one or two more records
    to the log, posts at most one request, and ends either with a
    response of role [assistant] signed with its own identifier or with
    an [HTTPException] of status 400 or 500. *)
Theorem a2a_endpoint_footprint (e : env) (message : A2AMessage) (w : world) :
  exists r w',
    a2a_endpoint e message w = (r, w') /\
    KNOWN_AGENTS w' = KNOWN_AGENTS w /\
    (exists more,
       a2a_log w' = (a2a_log w ++ incoming message :: more)%list /\
       (List.length more = 1 \/ List.length more = 2)%nat) /\
    (outbox w' = outbox w \/ exists req, outbox w' = (outbox w ++ [req])%list) /\
    match r with
    | Return resp =>
        response_role resp = "assistant" /\
        agent_id resp = MY_AGENT_USERNAME /\
        response_conversation_id resp = conversation_id message
    | Raise (HTTPException code _) => code = 400%Z \/ code = 500%Z
    | Raise _ => False
    end.
Proof.
  destruct (message_text message) as [| | |text| |] eqn:Ht.
  1-3, 5-6:
    destruct (a2a_endpoint_not_text_run e message w) as (t & Hr);
    [intros text; rewrite Ht; discriminate|];
    rewrite Hr; eexists; eexists; split; [reflexivity|];
    split; [reflexivity|]; split;
    [eexists; split; [simpl; rewrite <- app_assoc; reflexivity | now left]|];
    split; [now left | now right].
  destruct (has_mention_dec text) as [Hm|Hno].
  - destruct (a2a_routed e message text w Ht Hm)
      as (target & clean & answer & w1 & _ & Hrun & Hk & Hl & _ & Hend).
    destruct (send_footprint e target clean (conversation_id message)
                (logged (logged w (incoming message)) (routing message target clean)))
      as (answer' & w1' & Hrun' & _ & _ & Hout).
    rewrite Hrun in Hrun'. inversion Hrun'; subst answer' w1'. clear Hrun'.
    assert (Ho : outbox w1 = outbox w \/ exists req, outbox w1 = (outbox w ++ [req])%list).
    { destruct (dict_get _ _); [right; eexists; exact Hout | left; exact Hout]. }
    rewrite Hend. destruct (py_len answer) as [n|err].
    + eexists; eexists. split; [reflexivity|]. split; [exact Hk|]. split.
      * eexists. split; [simpl; rewrite Hl, <- app_assoc; reflexivity | now right].
      * split; [exact Ho | now repeat split].
    + eexists; eexists. split; [reflexivity|]. split; [exact Hk|]. split.
      * eexists. split; [simpl; rewrite Hl, <- app_assoc; reflexivity | now right].
      * split; [exact Ho | now right].
  - rewrite (a2a_endpoint_no_target e message text w Ht (parse_a2a_request_none _ Hno)).
    eexists; eexists. split; [reflexivity|]. split; [reflexivity|]. split.
    + eexists. split; [simpl; rewrite <- app_assoc; reflexivity | now left].
    + split; [now left | now left].
Qed.

(** ** Keys of the directory *)

Lemma py_eq_key (b k : json) :
  Py.hashable k = true -> (Py.eq b k = true <-> key_of b = key_of k).
Proof.
  intros Hk.
  destruct k as [|c|z|t| |]; try discriminate Hk;
    destruct b as [|c'|z'|t'|l'|f']; simpl;
    try (split; [discriminate | discriminate]);
    try (split; reflexivity);
    try destruct c; try destruct c';
    rewrite ?Z.eqb_eq, ?String.eqb_eq;
    split; intros H; try congruence; try (inversion H; reflexivity);
    try (subst; reflexivity).
Qed.

Lemma py_eq_congr (k' a k : json) :
  Py.hashable a = true -> Py.hashable k = true -> Py.eq a k = true ->
  Py.eq k' a = Py.eq k' k.
Proof.
  intros Ha Hk H. apply (py_eq_key a k Hk) in H.
  destruct (Py.eq k' k) eqn:E.
  - apply (py_eq_key k' a Ha). apply (py_eq_key k' k Hk) in E. congruence.
  - destruct (Py.eq k' a) eqn:E'; [|reflexivity].
    apply (py_eq_key k' a Ha) in E'.
    assert (Py.eq k' k = true) by (apply (py_eq_key k' k Hk); congruence).
    congruence.
Qed.

Lemma py_eq_apart (k' a k : json) :
  Py.hashable a = true -> Py.hashable k = true -> Py.eq a k = false ->
  Py.eq k' a = true -> Py.eq k' k = false.
Proof.
  intros Ha Hk H E. destruct (Py.eq k' k) eqn:E'; [|reflexivity].
  apply (py_eq_key k' a Ha) in E. apply (py_eq_key k' k Hk) in E'.
  assert (Py.eq a k = true) by (apply (py_eq_key a k Hk); congruence).
  congruence.
Qed.

Lemma dict_set_twice (k : json) (v v0 : string) (d : directory) :
  Py.hashable k = true -> dict_set k v (dict_set k v0 d) = dict_set k v d.
Proof.
  intros Hk. induction d as [|[k' v'] d IH]; simpl.
  - now rewrite py_eq_refl_hashable.
  - destruct (Py.eq k' k) eqn:E; simpl; rewrite E; [reflexivity | now rewrite IH].
Qed.

Lemma dict_get_congr (a k : json) (d : directory) :
  Py.hashable a = true -> Py.hashable k = true -> Py.eq a k = true ->
  dict_get a d = dict_get k d.
Proof.
  intros Ha Hk H. induction d as [|[k' v'] d IH]; [reflexivity|].
  simpl. rewrite (py_eq_congr k' a k Ha Hk H). now rewrite IH.
Qed.

Lemma dict_set_same_class (a k : json) (x v0 : string) (d : directory) :
  Py.hashable a = true -> Py.hashable k = true -> Py.eq a k = true ->
  dict_get a d <> None ->
  dict_set a x (dict_set k v0 d) = dict_set a x d.
Proof.
  intros Ha Hk H. induction d as [|[k' v'] d IH]; [intros Hp; now destruct Hp|].
  simpl. rewrite (py_eq_congr k' a k Ha Hk H).
  destruct (Py.eq k' k) eqn:E; simpl; rewrite (py_eq_congr k' a k Ha Hk H), E;
    [reflexivity|].
  intros Hp. now rewrite IH.
Qed.

Lemma dict_set_comm (a k : json) (x v0 : string) (d : directory) :
  Py.hashable a = true -> Py.hashable k = true -> Py.eq a k = false ->
  dict_get a d <> None ->
  dict_set a x (dict_set k v0 d) = dict_set k v0 (dict_set a x d).
Proof.
  intros Ha Hk H. induction d as [|[k' v'] d IH]; [intros Hp; now destruct Hp|].
  simpl. destruct (Py.eq k' a) eqn:Ea.
  - intros _. rewrite (py_eq_apart k' a k Ha Hk H Ea). simpl.
    now rewrite Ea, (py_eq_apart k' a k Ha Hk H Ea).
  - intros Hp. destruct (Py.eq k' k) eqn:Ek; simpl; rewrite Ea, Ek;
      [reflexivity | now rewrite IH].
Qed.

Lemma dict_set_keeps_present (u k : json) (v : string) (d : directory) :
  dict_get k d <> None -> dict_get k (dict_set u v d) <> None.
Proof.
  destruct (dict_get k d) as [x|] eqn:E; [|congruence].
  intros _. destruct (dict_set_keeps_keys u k v x d E) as (x' & ->). discriminate.
Qed.

Lemma store_keeps_present (entry : option (json * string)) (k : json) (d : directory) :
  dict_get k d <> None -> dict_get k (store entry d) <> None.
Proof.
  destruct entry as [[u v]|]; [apply dict_set_keeps_present | auto].
Qed.

Lemma store_all_keeps_present (l : list json) (k : json) (d : directory) :
  dict_get k d <> None -> dict_get k (store_all l d) <> None.
Proof.
  revert d. induction l as [|a l IH]; intros d H; [exact H|].
  apply IH, store_keeps_present, H.
Qed.

Lemma store_all_cons (a : json) (l : list json) (d : directory) :
  store_all (a :: l) d = store_all l (store (descriptor_entry a) d).
Proof. reflexivity. Qed.

Lemma store_all_snoc (a : json) (l : list json) (d : directory) :
  store_all (l ++ [a]) d = store (descriptor_entry a) (store_all l d).
Proof. now rewrite store_all_app. Qed.

Lemma store_all_present (l : list json) (d : directory) :
  keys_present l (store_all l d).
Proof.
  intros a u x Hin He. apply in_split in Hin. destruct Hin as (l1 & l2 & ->).
  rewrite store_all_app, store_all_cons, He. apply store_all_keeps_present.
  cbn [store]. destruct (descriptor_entry_hashable a u x He) as (_ & Hu).
  rewrite dict_get_set_same by exact Hu. discriminate.
Qed.

(** A write to [k] before a run of stores over present keys is
    absorbed by a write to [k] after it. *)
Lemma store_all_absorbs (l : list json) (k : json) (v v0 : string) (d : directory) :
  Py.hashable k = true ->
  keys_present l d ->
  dict_set k v (store_all l (dict_set k v0 d)) = dict_set k v (store_all l d).
Proof.
  intros Hk. revert d. induction l as [|a l IH]; intros d Hp.
  - now apply dict_set_twice.
  - assert (Hl : forall d', (forall u, dict_get u d <> None -> dict_get u d' <> None) ->
                            keys_present l d').
    { intros d' Hd b u x Hb He. apply Hd. apply (Hp b u x); [now right | exact He]. }
    rewrite !store_all_cons.
    destruct (descriptor_entry a) as [[u x]|] eqn:He; cbn [store].
    + destruct (descriptor_entry_hashable a u x He) as (_ & Hu).
      assert (Hpu : dict_get u d <> None) by (apply (Hp a u x); [now left | exact He]).
      destruct (Py.eq u k) eqn:E.
      * now rewrite (dict_set_same_class u k x v0 d Hu Hk E Hpu).
      * rewrite (dict_set_comm u k x v0 d Hu Hk E Hpu). apply IH.
        apply Hl. intros u'. apply dict_set_keeps_present.
    + apply IH. apply Hl. auto.
Qed.

Lemma store_all_idempotent (l : list json) (d : directory) :
  store_all l (store_all l d) = store_all l d.
Proof.
  induction l as [|a l IH] using rev_ind; [reflexivity|].
  rewrite !store_all_snoc.
  destruct (descriptor_entry a) as [[k v]|] eqn:He; cbn [store].
  - destruct (descriptor_entry_hashable a k v He) as (_ & Hk).
    rewrite (store_all_absorbs l k v v (store_all l d) Hk (store_all_present l d)).
    now rewrite IH.
  - exact IH.
Qed.

(** ** The refresh as a function of the reply *)

(** Whether the loop fails on a descriptor does not depend on the state. *)
Lemma register_fetched_agent_uniform (agent : json) :
  (exists e, forall w, register_fetched_agent agent w = (Raise e, w)) \/
  (forall w,
     register_fetched_agent agent w
     = (Return tt, with_known_agents w (store (descriptor_entry agent) (KNOWN_AGENTS w)))).
Proof.
  unfold register_fetched_agent, descriptor_entry.
  destruct agent as [| | | | |members];
    try (left; eexists; intros w; reflexivity).
  unfold bind, lift, ret. cbn [py_get].
  fold (descriptor_id (JObj members)). fold (descriptor_url (JObj members)).
  destruct (_ || _)%bool.
  - right. intros w. destruct w; reflexivity.
  - destruct (descriptor_url (JObj members)) as [| | |url| |];
      try (left; eexists; intros w; reflexivity).
    cbn [as_str]. unfold set_known_agent. fold (a2a_url url).
    destruct (Py.hashable (descriptor_id (JObj members)));
      [right; intros w; reflexivity | left; eexists; intros w; reflexivity].
Qed.

Lemma register_fetched_agent_by_ok (agent : json) (w : world) :
  if descriptor_ok agent
  then register_fetched_agent agent w
       = (Return tt, with_known_agents w (store (descriptor_entry agent) (KNOWN_AGENTS w)))
  else exists e, register_fetched_agent agent w = (Raise e, w).
Proof.
  unfold descriptor_ok.
  destruct (register_fetched_agent_uniform agent) as [(e & H)|H].
  - rewrite (H empty_world). cbn [fst]. now exists e.
  - rewrite (H empty_world). cbn [fst]. apply H.
Qed.

Lemma register_fetched_by_prefix (agents : list json) (w : world) :
  exists r,
    register_fetched agents w
    = (r, with_known_agents w (store_all (stored_prefix agents) (KNOWN_AGENTS w))) /\
    (if List.forallb descriptor_ok agents then r = Return tt else exists e, r = Raise e).
Proof.
  revert w. induction agents as [|agent agents IH]; intros w.
  - exists (Return tt). split; [|reflexivity].
    cbn. now rewrite with_known_agents_same.
  - rewrite register_fetched_cons. cbn [stored_prefix forallb].
    pose proof (register_fetched_agent_by_ok agent w) as H.
    destruct (descriptor_ok agent).
    + rewrite H.
      destruct (IH (with_known_agents w (store (descriptor_entry agent) (KNOWN_AGENTS w))))
        as (r & Hr & Hok).
      exists r. split; [rewrite Hr; reflexivity | exact Hok].
    + destruct H as (e & ->). exists (Raise e). split; [|now exists e].
      cbn. now rewrite with_known_agents_same.
Qed.

(** The refresh is a function of the reply: its flag, and the
    descriptors it stores into whatever directory it finds. *)
Lemma fetch_by_reply (reply : http_result) (w : world) :
  fetch_agents_from_registry reply w
  = (Return (refresh_ok reply),
     with_known_agents w (store_all (refresh_stores reply) (KNOWN_AGENTS w))).
Proof.
  rewrite fetch_run. unfold refresh_ok, refresh_stores.
  destruct (payload_items reply) as [items|e].
  - destruct (register_fetched_by_prefix items w) as (r & -> & Hok).
    destruct (forallb descriptor_ok items).
    + now subst r.
    + now destruct Hok as (e & ->).
  - cbn. now rewrite with_known_agents_same.
Qed.

(** X8.  A refresh is idempotent: repeated with the same reply it
    returns the same flag and leaves the state exactly as the first
    refresh left it, whether the refresh succeeds or fails part-way. *)
Theorem refresh_is_idempotent (reply : http_result) (w : world) :
  fetch_agents_from_registry reply (snd (fetch_agents_from_registry reply w))
  = fetch_agents_from_registry reply w.
Proof.
  rewrite !fetch_by_reply. cbn [snd with_known_agents KNOWN_AGENTS a2a_log outbox].
  now rewrite store_all_idempotent.
Qed.

Lemma store_all_foreign (l : list json) (k : json) (d : directory) :
  (forall a u x, In a l -> descriptor_entry a = Some (u, x) -> Py.eq u k = false) ->
  dict_get k (store_all l d) = dict_get k d.
Proof.
  revert d. induction l as [|a l IH]; intros d H; [reflexivity|].
  rewrite store_all_cons, IH by (intros b u x Hb; apply H; now right).
  destruct (descriptor_entry a) as [[u v]|] eqn:E; [|reflexivity].
  destruct (descriptor_entry_hashable a u v E) as (_ & Hu).
  apply dict_get_set_other; [exact Hu|]. now apply (H a u v); [left|].
Qed.

Lemma descriptor_entry_not_self (agent u : json) (x : string) :
  descriptor_entry agent = Some (u, x) ->
  Py.eq u (JStr MY_AGENT_USERNAME) = false /\ Text.endswith x "/a2a" = true.
Proof.
  unfold descriptor_entry. destruct agent; try discriminate.
  destruct (negb _) eqn:Et; [discriminate|]. cbn [orb].
  destruct (Py.eq _ (JStr MY_AGENT_USERNAME)) eqn:Es; [discriminate|].
  destruct (descriptor_url _) as [| | |url| |]; try discriminate.
  destruct (Py.hashable _); [|discriminate].
  intros H. inversion H; subst. split; [exact Es|].
  unfold a2a_url. destruct (Text.endswith url "/a2a") eqn:E; cbn [negb].
  - exact E.
  - apply endswith_app.
Qed.

(** X9.  A refresh never writes the entry of the agent's own username:
    whatever the registry sends, the directory maps the own username
    after the refresh to what it mapped it to before (in particular to
    nothing, when it held no such entry). *)
Theorem refresh_skips_own_username (reply : http_result) (w : world) :
  dict_get (JStr MY_AGENT_USERNAME)
    (KNOWN_AGENTS (snd (fetch_agents_from_registry reply w)))
  = dict_get (JStr MY_AGENT_USERNAME) (KNOWN_AGENTS w).
Proof.
  rewrite fetch_by_reply. cbn [snd with_known_agents KNOWN_AGENTS].
  apply store_all_foreign. intros a u x _ He.
  exact (proj1 (descriptor_entry_not_self a u x He)).
Qed.

Lemma dict_set_suffixed (k : json) (v : string) (d : directory) :
  Text.endswith v "/a2a" = true -> a2a_suffixed d -> a2a_suffixed (dict_set k v d).
Proof.
  intros Hv. unfold a2a_suffixed. induction d as [|[k' v'] d IH]; intros H.
  - repeat constructor. exact Hv.
  - inversion H; subst. simpl. destruct (Py.eq k' k); constructor; auto.
Qed.

(** X10.  A refresh keeps the form of the endpoints: when every
    endpoint of the directory ends in [/a2a], so does every endpoint
    after the refresh, because each URL the refresh stores is completed
    to end in [/a2a]. *)
Theorem refresh_keeps_a2a_suffix (reply : http_result) (w : world) :
  a2a_suffixed (KNOWN_AGENTS w) ->
  a2a_suffixed (KNOWN_AGENTS (snd (fetch_agents_from_registry reply w))).
Proof.
  rewrite fetch_by_reply. cbn [snd with_known_agents KNOWN_AGENTS].
  generalize (KNOWN_AGENTS w). induction (refresh_stores reply) as [|a l IH];
    intros d H; [exact H|].
  rewrite store_all_cons. apply IH.
  destruct (descriptor_entry a) as [[u x]|] eqn:E; [|exact H].
  apply dict_set_suffixed; [|exact H].
  exact (proj2 (descriptor_entry_not_self a u x E)).
Qed.

Lemma refresh_keeps_a2a_suffix_witness :
  a2a_suffixed
    (KNOWN_AGENTS
       (snd (fetch_agents_from_registry
               (registry_reply (JObj [("agents", JArr [bob_descriptor; JNum 5])]))
               alice_world))).
Proof.
  apply refresh_keeps_a2a_suffix. repeat constructor.
Defined.

(** ** The selector and the catalog *)





(** ** Direct queries *)

(** The reply lets a query through: a 2xx status and a JSON object. *)
Lemma send_query_run (e : env) (agent_url question user_id : string) (w : world) :
  exists answer,
    send_query_to_url e agent_url question user_id w
    = (Return answer,
       posted w agent_url (JObj [("question", JStr question); ("user_id", JStr user_id)])) /\
    (forall r members,
       post e agent_url (JObj [("question", JStr question); ("user_id", JStr user_id)])
       = Return r ->
       raise_for_status r = Return tt ->
       json_body r = Return (JObj members) ->
       answer = match Py.lookup "answer" members with
                | Some v => v
                | None => JStr (Py.str (JObj members))
                end) /\
    ((forall r members,
        post e agent_url (JObj [("question", JStr question); ("user_id", JStr user_id)])
        = Return r ->
        raise_for_status r = Return tt ->
        json_body r <> Return (JObj members)) ->
     exists text, answer = JStr text).
Proof.
  unfold send_query_to_url. run_monad.
  set (body := JObj [("question", JStr question); ("user_id", JStr user_id)]).
  fold (posted w agent_url body).
  destruct (post e agent_url body) as [r|err] eqn:Hp.
  - destruct (raise_for_status r) as [[]|err] eqn:Hs.
    + destruct (json_body r) as [data|err] eqn:Hb.
      * destruct data as [| | | | |members];
          try (simpl; eexists; split; [reflexivity|]; split;
               [intros r' members' Hr _ Hb'; inversion Hr; subst; congruence
               |intros _; eexists; reflexivity]).
        simpl. eexists. split; [reflexivity|]. split.
        -- intros r' members' Hr _ Hb'. inversion Hr; subst r'.
           rewrite Hb in Hb'. now inversion Hb'.
        -- intros H. now destruct (H r members eq_refl Hs).
      * destruct err; simpl; eexists; (split; [reflexivity|]); split;
          try (intros r' members' Hr _ Hb'; inversion Hr; subst; congruence);
          intros _; eexists; reflexivity.
    + destruct err; simpl; eexists; (split; [reflexivity|]); split;
        try (intros r' members' Hr Hs' _; inversion Hr; subst; congruence);
        intros _; eexists; reflexivity.
  - destruct err; simpl; eexists; (split; [reflexivity|]); split;
      try (intros r' members' Hr; discriminate Hr);
      intros _; eexists; reflexivity.
Qed.






(** ** The [/search] handler *)

Lemma py_get_plain (v : json) (key : string) (default : json) (e : exn) :
  py_get v key default = Raise e -> plain e.
Proof. destruct v; try discriminate; intros H; inversion H; eexists; reflexivity. Qed.

Lemma py_len_plain (v : json) (e : exn) : py_len v = Raise e -> plain e.
Proof. destruct v; try discriminate; intros H; inversion H; eexists; reflexivity. Qed.

Lemma py_iter_plain (v : json) (e : exn) : py_iter v = Raise e -> plain e.
Proof. destruct v; try discriminate; intros H; inversion H; eexists; reflexivity. Qed.

Lemma as_str_plain (v : json) (method : string) (e : exn) :
  as_str v method = Raise e -> plain e.
Proof. destruct v; try discriminate; intros H; inversion H; eexists; reflexivity. Qed.

Lemma py_first_plain (v : json) (e : exn) : py_first v = Raise e -> plain e.
Proof.
  destruct v as [| | |s|l|f]; try (intros H; inversion H; eexists; reflexivity).
  - destruct s; [|discriminate]. intros H; inversion H; eexists; reflexivity.
  - destruct l; [|discriminate]. intros H; inversion H; eexists; reflexivity.
Qed.

Lemma mapM_plain {A B : Type} (f : A -> result B) (l : list A) (e : exn) :
  (forall a e', f a = Raise e' -> plain e') ->
  mapM f l = Raise e -> plain e.
Proof.
  intros Hf. induction l as [|a l IH]; [discriminate|].
  cbn [mapM]. unfold rbind. destruct (f a) eqn:Ea.
  - destruct (mapM f l); [discriminate|]. intros H; inversion H; subst. now apply IH.
  - intros H; inversion H; subst. exact (Hf _ _ Ea).
Qed.

Lemma agent_summary_plain (agent : json) (e : exn) :
  agent_summary agent = Raise e -> plain e.
Proof.
  unfold agent_summary, rbind.
  destruct (py_get agent "id" (JStr "")) eqn:E1;
    [|intros H; inversion H; subst; exact (py_get_plain _ _ _ _ E1)].
  destruct (py_get agent "label" (JStr "")) eqn:E2;
    [|intros H; inversion H; subst; exact (py_get_plain _ _ _ _ E2)].
  destruct (py_get agent "description" (JStr "")) eqn:E3;
    [|intros H; inversion H; subst; exact (py_get_plain _ _ _ _ E3)].
  destruct (py_get agent "skills" (JArr [])) as [skills|] eqn:E4;
    [|intros H; inversion H; subst; exact (py_get_plain _ _ _ _ E4)].
  destruct (py_iter skills) as [items|] eqn:E5;
    [|intros H; inversion H; subst; exact (py_iter_plain _ _ E5)].
  destruct (mapM _ items) eqn:E6.
  - destruct (py_get agent "endpoints" (JObj [])) eqn:E7; [discriminate|].
    intros H; inversion H; subst; exact (py_get_plain _ _ _ _ E7).
  - intros H; inversion H; subst. apply (mapM_plain _ _ _ (fun a e' => py_get_plain a _ _ e') E6).
Qed.

Lemma keyword_fallback_plain (query_lower : string) (l : list json) (e : exn) :
  keyword_fallback query_lower l = Raise e -> plain e.
Proof.
  induction l as [|a l IH]; [discriminate|].
  cbn [keyword_fallback]. unfold rbind.
  destruct (py_get a "description" (JStr "")) as [d|] eqn:E1;
    [|intros H; inversion H; subst; exact (py_get_plain _ _ _ _ E1)].
  destruct (as_str d "lower") as [ds|] eqn:E2;
    [|intros H; inversion H; subst; exact (as_str_plain _ _ _ E2)].
  destruct (py_get a "label" (JStr "")) as [lb|] eqn:E3;
    [|intros H; inversion H; subst; exact (py_get_plain _ _ _ _ E3)].
  destruct (as_str lb "lower") as [ls|] eqn:E4;
    [|intros H; inversion H; subst; exact (as_str_plain _ _ _ E4)].
  destruct (_ || _)%bool; [discriminate | exact IH].
Qed.

(** The selector raises interpreter errors only: what the model call or
    [json.loads] raise is caught. *)
Lemma select_best_agent_plain
    (json_loads : string -> result json)
    (llm_call : string -> list json -> result string)
    (query : string) (agentfacts : list json) (e : exn) :
  select_best_agent json_loads llm_call query agentfacts = Raise e -> plain e.
Proof.
  unfold select_best_agent. destruct agentfacts as [|x l]; [discriminate|].
  unfold rbind. destruct (mapM agent_summary (x :: l)) as [summary|] eqn:Em.
  - destruct (llm_selection _ _ _ _ _); [discriminate|].
    apply keyword_fallback_plain.
  - intros H; inversion H; subst. exact (mapM_plain _ _ _ agent_summary_plain Em).
Qed.

Lemma selected_endpoint_plain (agent : json) (e : exn) :
  selected_endpoint agent = Raise e -> plain e.
Proof.
  unfold selected_endpoint, rbind.
  destruct (py_get agent "endpoints" (JObj [])) as [endpoints|] eqn:E1;
    [|intros H; inversion H; subst; exact (py_get_plain _ _ _ _ E1)].
  destruct (py_get endpoints "static" (JArr [])) as [st|] eqn:E2;
    [|intros H; inversion H; subst; exact (py_get_plain _ _ _ _ E2)].
  destruct (Py.truthy st); [apply py_first_plain|].
  destruct endpoints as [| | | | |members]; try discriminate.
  destruct (Py.lookup "adaptive_resolver" members); [apply py_get_plain | discriminate].
Qed.

Lemma make_search_response_plain (s : search_env) (selected : list (string * json))
    (answer : json) (e : exn) :
  make_search_response s selected answer = Raise e -> plain e.
Proof.
  destruct answer; try discriminate; intros H; inversion H; eexists; reflexivity.
Qed.

Lemma catalog_unusable_falsy (reply : http_result) :
  catalog_unusable reply <-> Py.truthy (fetch_agentfacts_from_db reply) = false.
Proof.
  unfold catalog_unusable, fetch_agentfacts_from_db, rbind.
  destruct reply as [r|e]; [|now split].
  destruct (raise_for_status r) as [[]|e]; [|split; [reflexivity | intros _; left; discriminate]].
  destruct (json_body r) as [data|e];
    [|split; [reflexivity | intros _; now right]].
  destruct data as [| | | |items|members];
    try (split; [reflexivity | intros _; now right]).
  - split.
    + intros [H|H]; [congruence | now subst].
    + destruct items; [now right | discriminate].
  - destruct (Py.lookup "agents" members) as [v|].
    + split; [intros [H|H]; [congruence | exact H] | now right].
    + split; [reflexivity | now right].
Qed.

(** X14.  When the catalog request gives nothing to select from (it
    fails, the status is outside 2xx, the body is not JSON, or the body
    is an empty list, an object without a true [agents] member, or a
    scalar), [/search] answers with HTTP 503 and changes nothing: no
    request goes to any peer and nothing is logged. *)
Theorem search_without_catalog (s : search_env) (request : SearchRequest) (w : world) :
  catalog_unusable (db_reply s) ->
  search_and_route s request w
  = (Raise (HTTPException 503 "No agents available in the database"), w).
Proof.
  intros H. apply catalog_unusable_falsy in H.
  unfold search_and_route. run_monad. now rewrite H.
Qed.

Lemma search_without_catalog_witness :
  search_and_route (search_over (JObj [("count", JNum 0)]) "I cannot decide.")
    mail_request alice_world
  = (Raise (HTTPException 503 "No agents available in the database"), alice_world).
Proof.
  apply search_without_catalog. right. exact I.
Defined.

Lemma py_iter_len (v : json) (items : list json) :
  py_iter v = Return items -> exists n, py_len v = Return n.
Proof. destruct v; try discriminate; intros _; eexists; reflexivity. Qed.

(** X15.  When the selector finds no agent, or an empty one, [/search]
    answers with HTTP 404 and nothing is posted to any peer. *)
Theorem search_without_selection
    (s : search_env) (request : SearchRequest) (w : world)
    (catalog : list json) (selected : option json) :
  Py.truthy (fetch_agentfacts_from_db (db_reply s)) = true ->
  py_iter (fetch_agentfacts_from_db (db_reply s)) = Return catalog ->
  select_best_agent (loads s) (complete s) (search_query request) catalog
  = Return selected ->
  not_selected selected = true ->
  search_and_route s request w
  = (Raise (HTTPException 404 "No suitable agent found for this query"), w).
Proof.
  intros Ht Hi Hs Hn. destruct (py_iter_len _ _ Hi) as (n & Hl).
  unfold search_and_route. run_monad. now rewrite Ht, Hl, Hi, Hs, Hn.
Qed.

Lemma search_without_selection_witness :
  search_and_route
    (search_over (JArr [mail_agent]) (fenced (selection_text "calendar")))
    mail_request alice_world
  = (Raise (HTTPException 404 "No suitable agent found for this query"), alice_world).
Proof.
  apply (search_without_selection
           (search_over (JArr [mail_agent]) (fenced (selection_text "calendar")))
           mail_request alice_world [mail_agent] None); reflexivity.
Defined.

(** X16.  When the selected agent lists static endpoints whose first
    one is a non-empty string, [/search] posts the query once, to the
    query URL of that endpoint, whether or not the agent has an
    adaptive resolver too; a 2xx answer object with a string [answer]
    gives a response that carries this answer and names the URL that
    was posted to as [endpoint], beside the identifier, label and
    description of the agent. *)
Theorem search_routes_to_static_endpoint
    (s : search_env) (request : SearchRequest) (w : world)
    (catalog : list json) (members endpoints : list (string * json))
    (url : string) (more : list json)
    (r : response) (answer_members : list (string * json)) (text : string) :
  fetch_agentfacts_from_db (db_reply s) = JArr catalog ->
  select_best_agent (loads s) (complete s) (search_query request) catalog
  = Return (Some (JObj members)) ->
  Py.lookup "endpoints" members = Some (JObj endpoints) ->
  Py.lookup "static" endpoints = Some (JArr (JStr url :: more)) ->
  url <> "" ->
  post (peers s) (query_url url)
    (JObj [("question", JStr (search_query request));
           ("user_id", JStr (search_user_id request))]) = Return r ->
  raise_for_status r = Return tt ->
  json_body r = Return (JObj answer_members) ->
  Py.lookup "answer" answer_members = Some (JStr text) ->
  search_and_route s request w
  = (Return {| selected_agent :=
                 [("id", agent_id_of (JObj members));
                  ("label", match Py.lookup "label" members with
                            | Some v => v | None => JNull end);
                  ("description", match Py.lookup "description" members with
                                  | Some v => v | None => JNull end);
                  ("endpoint", JStr (query_url url))];
               agent_response := text;
               search_timestamp := now (peers s);
               processing_time := elapsed s |},
     posted w (query_url url)
       (JObj [("question", JStr (search_query request));
              ("user_id", JStr (search_user_id request))])).
Proof.
  intros Hf Hsel He Hst Hne Hp Hs Hb Ha.
  assert (Hcat : catalog <> []).
  { intros ->. discriminate Hsel. }
  assert (Hmem : members <> []).
  { intros ->. discriminate He. }
  destruct (send_query_run (peers s) (query_url url) (search_query request)
              (search_user_id request) w) as (answer & Hrun & Hok & _).
  rewrite (Hok r answer_members Hp Hs Hb), Ha in Hrun.
  unfold search_and_route. rewrite Hf. run_monad.
  destruct catalog as [|c0 catalog]; [congruence|].
  cbn [Py.truthy negb py_len py_iter]. rewrite Hsel.
  destruct members as [|m0 members]; [congruence|].
  cbn [not_selected selected_value Py.truthy negb].
  unfold selected_endpoint, rbind. cbn [py_get]. rewrite He. cbn [py_get].
  rewrite Hst. cbn [Py.truthy py_first negb].
  apply String.eqb_neq in Hne. rewrite Hne. cbn [negb as_str].
  rewrite Hrun. reflexivity.
Qed.

Lemma search_routes_to_static_endpoint_witness :
  exists resp,
    search_and_route mail_search mail_request empty_world
    = (Return resp,
       posted empty_world "http://x/query"
         (JObj [("question", JStr "send an email"); ("user_id", JStr "anonymous")])) /\
    agent_response resp = "hi" /\
    Py.lookup "endpoint" (selected_agent resp) = Some (JStr "http://x/query").
Proof.
  assert (Hne : "http://x/a2a" <> "") by discriminate.
  pose proof
    (search_routes_to_static_endpoint mail_search mail_request empty_world
       [static_agent "mail" "http://x/a2a"]
       [("id", JStr "mail");
        ("label", JStr "Email agent");
        ("description", JStr "Sends and reads email");
        ("endpoints",
         JObj [("static", JArr [JStr "http://x/a2a"]);
               ("adaptive_resolver", JObj [("url", JStr "http://other/a2a")])])]
       [("static", JArr [JStr "http://x/a2a"]);
        ("adaptive_resolver", JObj [("url", JStr "http://other/a2a")])]
       "http://x/a2a" []
       {| status_code := 200; status_error := "";
          json_body := Return (JObj [("answer", JStr "hi")]) |}
       [("answer", JStr "hi")] "hi"
       eq_refl eq_refl eq_refl eq_refl Hne eq_refl eq_refl eq_refl eq_refl) as H.
  eexists. split; [exact H|]. split; reflexivity.
Defined.

(** X17.  When the selected agent yields no endpoint (no static
    endpoint and no resolver URL, as for an agent without an
    [endpoints] member), [/search] answers with HTTP 500 naming the
    label of the agent, and nothing is posted to any peer. *)
Theorem search_agent_without_endpoint
    (s : search_env) (request : SearchRequest) (w : world)
    (catalog : list json) (members : list (string * json)) (found : json) :
  fetch_agentfacts_from_db (db_reply s) = JArr catalog ->
  select_best_agent (loads s) (complete s) (search_query request) catalog
  = Return (Some (JObj members)) ->
  members <> [] ->
  selected_endpoint (JObj members) = Return found ->
  Py.truthy found = false ->
  search_and_route s request w
  = (Raise (HTTPException 500
              ("Selected agent '"
                 ++ Py.str (match Py.lookup "label" members with
                            | Some v => v | None => JNull end)
                 ++ "' has no valid endpoint")), w) /\
  (Py.lookup "endpoints" members = None -> found = JNull).
Proof.
  intros Hf Hsel Hm He Ht. split.
  - assert (Hcat : catalog <> []) by (intros ->; discriminate Hsel).
    unfold search_and_route. rewrite Hf. run_monad.
    destruct catalog as [|c0 catalog]; [congruence|].
    cbn [Py.truthy negb py_len py_iter]. rewrite Hsel.
    destruct members as [|m0 members]; [congruence|].
    cbn [not_selected selected_value Py.truthy negb].
    rewrite He, Ht. reflexivity.
  - intros Hn. unfold selected_endpoint, rbind in He. cbn [py_get] in He.
    rewrite Hn in He. cbn in He. now inversion He.
Qed.

Lemma search_agent_without_endpoint_witness :
  search_and_route
    (search_over (JArr [JObj [("id", JStr "mail"); ("label", JStr "Mail")]])
       (fenced (selection_text "mail")))
    mail_request alice_world
  = (Raise (HTTPException 500 "Selected agent 'Mail' has no valid endpoint"), alice_world).
Proof.
  assert (Hne : [("id", JStr "mail"); ("label", JStr "Mail")] <> []) by discriminate.
  exact (proj1 (search_agent_without_endpoint
                  (search_over (JArr [JObj [("id", JStr "mail"); ("label", JStr "Mail")]])
                     (fenced (selection_text "mail")))
                  mail_request alice_world
                  [JObj [("id", JStr "mail"); ("label", JStr "Mail")]]
                  [("id", JStr "mail"); ("label", JStr "Mail")] JNull
                  eq_refl eq_refl Hne eq_refl eq_refl)).
Defined.

(** Settle a leaf of [search_footprint]. *)
Ltac search_leaf :=
  eexists; eexists; split; [reflexivity|];
  split; [reflexivity|]; split; [reflexivity|];
  split;
  [first [left; reflexivity
         |right; eexists; split; [reflexivity | apply query_url_suffix]]
  |first [left; reflexivity
         |right; left; reflexivity
         |right; right; reflexivity
         |eexists; split; [reflexivity|]; split;
          [reflexivity | apply query_url_suffix]]].

(** X18.  Whatever the catalog, the model and the peers do, [/search]
    leaves the directory and the log alone and posts at most one
    request, which carries the query and the user identifier to a URL
    ending in [/query].  It ends with a response that names exactly
    that URL as [endpoint], or with an [HTTPException] of status 503,
    404 or 500; no other exception leaves the handler. *)
Theorem search_footprint (s : search_env) (request : SearchRequest) (w : world) :
  exists r w',
    search_and_route s request w = (r, w') /\
    KNOWN_AGENTS w' = KNOWN_AGENTS w /\
    a2a_log w' = a2a_log w /\
    (outbox w' = outbox w \/
     exists url,
       outbox w'
       = (outbox w ++
          [{| req_url := url;
              req_json := JObj [("question", JStr (search_query request));
                                ("user_id", JStr (search_user_id request))] |}])%list /\
       Text.endswith url "/query" = true) /\
    match r with
    | Return resp =>
        exists url,
          Py.lookup "endpoint" (selected_agent resp) = Some (JStr url) /\
          outbox w'
          = (outbox w ++
             [{| req_url := url;
                 req_json := JObj [("question", JStr (search_query request));
                                   ("user_id", JStr (search_user_id request))] |}])%list /\
          Text.endswith url "/query" = true
    | Raise (HTTPException code _) => code = 503%Z \/ code = 404%Z \/ code = 500%Z
    | Raise _ => False
    end.
Proof.
  unfold search_and_route. run_monad.
  destruct (Py.truthy (fetch_agentfacts_from_db (db_reply s))); cbn [negb];
    [|search_leaf].
  destruct (py_len _) as [n|e] eqn:E1;
    [|destruct (py_len_plain _ _ E1) as (msg & ->); search_leaf].
  destruct (py_iter _) as [catalog|e] eqn:E2;
    [|destruct (py_iter_plain _ _ E2) as (msg & ->); search_leaf].
  destruct (select_best_agent _ _ _ _) as [selected|e] eqn:E3;
    [|destruct (select_best_agent_plain _ _ _ _ _ E3) as (msg & ->); search_leaf].
  destruct (not_selected selected); [search_leaf|].
  destruct (selected_endpoint _) as [found|e] eqn:E4;
    [|destruct (selected_endpoint_plain _ _ E4) as (msg & ->); search_leaf].
  destruct (Py.truthy found); cbn [negb].
  - destruct (as_str found "endswith") as [text|e] eqn:E5;
      [|destruct (as_str_plain _ _ _ E5) as (msg & ->); search_leaf].
    destruct (send_query_run (peers s) (query_url text) (search_query request)
                (search_user_id request) w) as (answer & -> & _).
    destruct (py_get (selected_value selected) "id" JNull) as [id|e] eqn:E6;
      [|destruct (py_get_plain _ _ _ _ E6) as (msg & ->); search_leaf].
    destruct (py_get (selected_value selected) "label" JNull) as [label|e] eqn:E7;
      [|destruct (py_get_plain _ _ _ _ E7) as (msg & ->); search_leaf].
    destruct (py_get (selected_value selected) "description" JNull)
      as [description|e] eqn:E8;
      [|destruct (py_get_plain _ _ _ _ E8) as (msg & ->); search_leaf].
    destruct (make_search_response _ _ _) as [resp|e] eqn:E9;
      [|destruct (make_search_response_plain _ _ _ _ E9) as (msg & ->); search_leaf].
    destruct answer; try discriminate E9. inversion E9; subst resp. search_leaf.
  - destruct (py_get (selected_value selected) "label" JNull) as [label|e] eqn:E6;
      [search_leaf|].
    destruct (py_get_plain _ _ _ _ E6) as (msg & ->). search_leaf.
Qed.

(** ** From the registry to the forwarder *)

Lemma stored_prefix_all (agents : list json) :
  List.forallb descriptor_ok agents = true -> stored_prefix agents = agents.
Proof.
  induction agents as [|a l IH]; [reflexivity|].
  cbn [forallb stored_prefix]. destruct (descriptor_ok a); [|discriminate].
  intros H. now rewrite IH.
Qed.

(** X19.  An agent learned from the registry is reachable under its
    identifier: after a successful refresh whose payload holds a
    descriptor stored as [(id, url)], with no later descriptor for the
    same identifier, a message for [id] is posted once, to the query
    URL of [url], and [url] ends in [/a2a]. *)
Theorem refreshed_agent_is_reachable
    (e : env) (reply : http_result) (w : world)
    (before after : list json) (agent : json) (id url message cid : string) :
  payload_items reply = Return (before ++ agent :: after)%list ->
  fst (fetch_agents_from_registry reply w) = Return true ->
  descriptor_entry agent = Some (JStr id, url) ->
  (forall a, In a after -> Py.eq (descriptor_id a) (JStr id) = false) ->
  Text.endswith url "/a2a" = true /\
  exists answer w2,
    send_message_to_agent e id message cid (snd (fetch_agents_from_registry reply w))
    = (Return answer, w2) /\
    outbox w2
    = (outbox w ++ [{| req_url := query_url url; req_json := query_body message |}])%list /\
    Text.endswith (query_url url) "/query" = true.
Proof.
  intros Hitems Hok Hentry Hafter.
  split; [exact (proj2 (descriptor_entry_not_self agent _ url Hentry))|].
  rewrite fetch_by_reply in Hok |- *. cbn [fst snd] in Hok |- *.
  injection Hok as Hflag. unfold refresh_ok in Hflag. unfold refresh_stores.
  rewrite Hitems in Hflag |- *. rewrite (stored_prefix_all _ Hflag).
  set (w1 := with_known_agents w (store_all (before ++ agent :: after) (KNOWN_AGENTS w))).
  assert (Hget : dict_get (JStr id) (KNOWN_AGENTS w1) = Some url).
  { unfold w1. cbn [with_known_agents KNOWN_AGENTS].
    rewrite store_all_app, store_all_cons, store_all_other by exact Hafter.
    rewrite Hentry. cbn [store]. now apply dict_get_set_same. }
  destruct (send_known e id message cid url w1 Hget) as (answer & Hrun & _).
  exists answer, (posted w1 (query_url url) (query_body message)).
  split; [exact Hrun|]. split; [reflexivity | apply query_url_suffix].
Qed.

Lemma refreshed_agent_is_reachable_witness :
  exists answer w2,
    send_message_to_agent alice_env "bob" "hello" "c1"
      (snd (fetch_agents_from_registry
              (registry_reply (JObj [("agents", JArr [alice_descriptor; bob_descriptor])]))
              empty_world))
    = (Return answer, w2) /\
    outbox w2 = [{| req_url := "http://y/query"; req_json := query_body "hello" |}].
Proof.
  destruct (refreshed_agent_is_reachable alice_env
              (registry_reply (JObj [("agents", JArr [alice_descriptor; bob_descriptor])]))
              empty_world [alice_descriptor] [] bob_descriptor "bob" "http://y/a2a"
              "hello" "c1" eq_refl eq_refl eq_refl)
    as (_ & answer & w2 & Hrun & Hout & _).
  - intros a [].
  - exists answer, w2. split; [exact Hrun | exact Hout].
Defined.
